(** * NEO atmospheric entry and impact kernel: a shallow embedding in Rocq

    This development embeds the physics kernel of the impact simulator
    (module [neoEntryImpact]) and proves properties of it.  Two versions of
    the module exist in the repository and both are embedded:

    - [V005]: the version in [src/unnamed/part_005] (low-speed entry regime,
      1000 m/s fragmentation floor, ablation only above 3000 m/s,
      terminal-velocity mode, 1800 s cutoff);
    - [Svc]: the version in [src/src/services/neoEntryImpact.js] (loop stops
      below 300 m/s, unconditional ablation and fragmentation, 300 s cutoff).

    JavaScript numbers are modelled as real numbers: the formulas are the
    ones of the source, evaluated in exact arithmetic.  A comparison of the
    source ([a < b], [a >= b], ...) is a boolean computed from the decidable
    order on [R].  A field that JavaScript leaves [null] or [undefined] is an
    [option]. *)

From Stdlib Require Import Reals Psatz Lia List String Bool ZArith.
Import ListNotations.
Open Scope R_scope.

(* ------------------------------------------------------------------ *)
(** ** JavaScript helpers *)

(** The comparison operators of the source, as booleans. *)
Definition rlt (x y : R) : bool := if Rlt_dec x y then true else false.
Definition rle (x y : R) : bool := if Rle_dec x y then true else false.
Definition rgt (x y : R) : bool := rlt y x.
Definition rge (x y : R) : bool := rle y x.

(** [o || d] for a numeric option: [undefined] and [0] are falsy. *)
Definition js_or (o : option R) (d : R) : R :=
  match o with
  | Some x => if Req_EM_T x 0 then d else x
  | None => d
  end.

(** [o || d] for a boolean option. *)
Definition js_or_bool (o : option bool) (d : bool) : bool :=
  match o with Some true => true | _ => d end.

(** [o || d] for the integer option [recordInterval]. *)
Definition js_or_nat (o : option nat) (d : nat) : nat :=
  match o with Some (S k) => S k | _ => d end.

(** [Math.pow(x, y)] for a positive base. *)
Definition js_pow (x y : R) : R := Rpower x y.

(* ------------------------------------------------------------------ *)
(** ** Constants *)

Definition V_ESCAPE_EARTH : R := 11.2.
Definition GRAVITY : R := 9.81.
Definition RHO_0 : R := 1.225.
Definition SCALE_HEIGHT : R := 7200.
Definition C_D : R := 1.0.
Definition LAMBDA : R := 0.7.
Definition Q_ABLATION : R := 8e6.
Definition H_ENTRY : R := 100000.

(* ------------------------------------------------------------------ *)
(** ** Utility functions (identical in both versions) *)

Definition toRadians (degrees : R) : R := degrees * PI / 180.

Definition toDegrees (radians : R) : R := radians * 180 / PI.

Definition atmosphericDensity (altitude : R) : R :=
  if rlt altitude 0 then RHO_0
  else RHO_0 * exp (- altitude / SCALE_HEIGHT).

Definition dynamicPressure (rho velocity : R) : R :=
  0.5 * rho * velocity * velocity.

(* ------------------------------------------------------------------ *)
(** ** Data model *)

Record EntryConditions := mkEntry {
  ec_velocity : R;   (** m/s *)
  ec_vInfinity : R;  (** km/s *)
  ec_angle : R       (** degrees from horizontal *)
}.

Record Material := mkMaterial {
  mat_density : R;
  mat_strength : R;
  mat_name : option string
}.

Record BodyProperties := mkBody {
  bp_diameter : R;
  bp_mass : R;
  bp_area : R;
  bp_density : R;
  bp_strength : R;
  bp_material : string
}.

(** [calculateBodyProperties] (identical in both versions). *)
Definition calculateBodyProperties (diameter : R) (material : Material)
  : BodyProperties :=
  let radius := diameter / 2 in
  let area := PI * radius * radius in
  let volume := (4/3) * PI * radius * radius * radius in
  let mass := mat_density material * volume in
  {| bp_diameter := diameter;
     bp_mass := mass;
     bp_area := area;
     bp_density := mat_density material;
     bp_strength := mat_strength material;
     bp_material :=
       match mat_name material with
       | Some s => if String.eqb s "" then "custom" else s
       | None => "custom"
       end |}.

(** [entryAngleDeg = 45] as a default parameter: [None] is [undefined]. *)
Definition default_angle (a : option R) : R :=
  match a with Some x => x | None => 45 end.


(* ------------------------------------------------------------------ *)
(** ** Trajectory integration: shared data *)

(** [TrajectoryState]: a recorded snapshot. *)
Record TrajectoryState := mkTS {
  ts_time : R;
  ts_altitude : R;
  ts_velocity : R;
  ts_mass : R;
  ts_angle : R;
  ts_q : R;
  ts_rho : R;
  ts_fragmented : bool
}.

(** The [impact] object of the result. *)
Record Impact := mkImpact {
  im_altitude : R;
  im_velocity : R;
  im_mass : R;
  im_massFraction : R;
  im_airburst : bool;
  im_airburstAltitude : option R;
  im_airburstEnergy : option R;
  im_groundImpact : bool;
  im_impactEnergy : R
}.

Record TrajectoryResult := mkResult {
  tr_trajectory : list TrajectoryState;
  tr_impact : Impact
}.

(** [IntegrationOptions]; every field may be left [undefined] ([None]). *)
Record IntegrationOptions := mkOptions {
  opt_dt : option R;
  opt_lambda : option R;
  opt_Q : option R;
  opt_Cd : option R;
  opt_fragmentationMultiplier : option R;
  opt_recordTrajectory : option bool;
  opt_recordInterval : option nat
}.

Definition no_options : IntegrationOptions :=
  mkOptions None None None None None None None.

(** The values fixed before the [while] loop starts. *)
Record LoopEnv := mkEnv {
  env_dt : R;
  env_lambda : R;
  env_Q : R;
  env_Cd : R;
  env_fragMult : R;
  env_recordTrajectory : bool;
  env_recordInterval : nat;
  env_gamma : R;
  env_initialVelocity : R;
  env_body : BodyProperties
}.

(** The [let] variables updated by the loop body. *)
Record LoopState := mkState {
  st_t : R;
  st_h : R;
  st_v : R;
  st_m : R;
  st_A : R;
  st_fragmented : bool;
  st_airburstAltitude : option R;
  st_airburstEnergy : option R;
  st_stepCount : nat;
  st_trajectory : list TrajectoryState
}.

(** Outcome of one execution of the loop body: fall through to the next
    test of the loop condition, or leave the loop through a [break]. *)
Inductive StepResult :=
  | Continue (s : LoopState)
  | Break (s : LoopState).

(** Resolution of the defaults at the top of [integrateTrajectory]. *)
Definition make_env (entry : EntryConditions) (body : BodyProperties)
  (options : IntegrationOptions) : LoopEnv :=
  {| env_dt := js_or (opt_dt options) 0.05;
     env_lambda := js_or (opt_lambda options) LAMBDA;
     env_Q := js_or (opt_Q options) Q_ABLATION;
     env_Cd := js_or (opt_Cd options) C_D;
     env_fragMult := js_or (opt_fragmentationMultiplier options) 3;
     env_recordTrajectory := js_or_bool (opt_recordTrajectory options) false;
     env_recordInterval := js_or_nat (opt_recordInterval options) 10;
     env_gamma := toRadians (ec_angle entry);
     env_initialVelocity := ec_velocity entry;
     env_body := body |}.

(** Initial state, including the optional first trajectory record. *)
Definition initial_state (e : LoopEnv) : LoopState :=
  let v := env_initialVelocity e in
  let m := bp_mass (env_body e) in
  let rho0 := atmosphericDensity H_ENTRY in
  let q0 := dynamicPressure rho0 v in
  {| st_t := 0; st_h := H_ENTRY; st_v := v; st_m := m;
     st_A := bp_area (env_body e);
     st_fragmented := false;
     st_airburstAltitude := None;
     st_airburstEnergy := None;
     st_stepCount := 0;
     st_trajectory :=
       if env_recordTrajectory e
       then [mkTS 0 H_ENTRY v m (env_gamma e) q0 rho0 false]
       else [] |}.

(** [if (recordTrajectory && stepCount % recordInterval === 0) push(...)] *)
Definition record_step (e : LoopEnv) (n : nat) (traj : list TrajectoryState)
  (snap : TrajectoryState) : list TrajectoryState :=
  if env_recordTrajectory e && Nat.eqb (Nat.modulo n (env_recordInterval e)) 0
  then traj ++ [snap] else traj.

(** The iteration budget of the loop model: [up (cutoff / dt)] executions
    of the body.  The source has no such counter; the termination results
    below show that, for a positive [dt], the loop always leaves through
    its own tests within this budget, so [None] is never returned then. *)
Definition flight_fuel (cutoff dt : R) : nat := Z.to_nat (up (cutoff / dt)).

(** Everything after the loop: final record and the [impact] object;
    [airburst_of] is the version-specific [airburst] expression. *)
Definition finish (e : LoopEnv) (airburst_of : LoopState -> bool)
  (s : LoopState) : TrajectoryResult :=
  let h := st_h s in
  let v := st_v s in
  let m := st_m s in
  let finalRho := atmosphericDensity h in
  let finalQ := dynamicPressure finalRho v in
  let traj :=
    if env_recordTrajectory e
    then st_trajectory s ++
         [mkTS (st_t s) h v m (env_gamma e) finalQ finalRho (st_fragmented s)]
    else st_trajectory s in
  let impactEnergy := (0.5 * m * v * v) / 4.184e15 in
  {| tr_trajectory := traj;
     tr_impact :=
       {| im_altitude := h;
          im_velocity := v;
          im_mass := m;
          im_massFraction := m / bp_mass (env_body e);
          im_airburst := airburst_of s;
          im_airburstAltitude := st_airburstAltitude s;
          im_airburstEnergy := st_airburstEnergy s;
          im_groundImpact := rle h 0;
          im_impactEnergy := impactEnergy |} |}.

(* ------------------------------------------------------------------ *)
(** ** Blast effects: shared data *)

(** [BlastEffects].  The early return of [estimateBlastEffects] builds an
    object without a [radiusExtreme] property; reading it gives
    [undefined], modelled as [None]. *)
Record BlastEffects := mkBlast {
  be_energy : R;
  be_altitude : R;
  be_radiusWindowBreak : R;
  be_radiusStructuralDamage : R;
  be_radiusSevereDestruction : R;
  be_radiusExtreme : option R;
  be_severity : string
}.

(** The inner function [rangeForOverpressure] of [estimateBlastEffects]
    (identical in both versions), with the closed-over [E_kt] and
    [altitude] as explicit arguments.  [Math.pow] is only reached with a
    positive base: [E_kt > 0], [1 + altitude / 6789 > 0] and [r_term > 0]
    under the guards. *)
Definition rangeForOverpressure (E_kt altitude p_target : R) : R :=
  if rle p_target 0 then 0 else
  let yield_scale := js_pow E_kt (1/3) in
  let alt_factor := js_pow (1 + altitude / 6789) 2 in
  let p_1kt := p_target / js_pow E_kt (2/3) in
  let denominator := p_1kt * alt_factor in
  if rle denominator 0 then 0 else
  let r_term := (3.14e11 / denominator) - 2.5e5 in
  if rle r_term 0 then 0.01 else
  let r_1kt := js_pow r_term (1/2.5) in
  let r_scaled := r_1kt * yield_scale in
  r_scaled / 1000.

(** The [r_term] computed inside [rangeForOverpressure]. *)
Definition r_term_of (E_kt altitude p_target : R) : R :=
  3.14e11 / (p_target / js_pow E_kt (2/3) * js_pow (1 + altitude / 6789) 2) - 2.5e5.

Definition H_REF : R := 25.
Definition H_SCALE : R := 8.
Definition EXP_P : R := 0.6.
Definition CAP_WINDOW : R := 300.

(** The part of [estimateBlastEffects] after the early return, given the
    window-breakage overpressure of the version (2 kPa or 1 kPa). *)
Definition blast_radii (p_window energy altitude : R) : BlastEffects :=
  let h_km := altitude / 1000 in
  let E_kt := energy * 1000 in
  let radiusWindowBreak := rangeForOverpressure E_kt altitude p_window in
  let radiusStructuralDamage := rangeForOverpressure E_kt altitude 20000 in
  let radiusSevereDestruction := rangeForOverpressure E_kt altitude 35000 in
  let radiusExtreme := rangeForOverpressure E_kt altitude 100000 in
  let h_burst_km := altitude / 1000 in
  let attenuation :=
    if rgt h_burst_km H_REF
    then exp (- js_pow ((h_burst_km - H_REF) / H_SCALE) EXP_P)
    else 1.0 in
  let radiusWindowBreak := radiusWindowBreak * attenuation in
  let radiusStructuralDamage := radiusStructuralDamage * attenuation in
  let radiusSevereDestruction := radiusSevereDestruction * attenuation in
  let radiusExtreme := radiusExtreme * attenuation in
  let radiusWindowBreak :=
    if rgt radiusWindowBreak CAP_WINDOW then CAP_WINDOW else radiusWindowBreak in
  let severity :=
    if rgt radiusSevereDestruction 10 then "catastrophic"%string
    else if rgt radiusSevereDestruction 3 then "major"%string
    else if rgt radiusStructuralDamage 10 then "significant"%string
    else if rgt radiusWindowBreak 20 then "moderate"%string
    else "minor"%string in
  {| be_energy := energy;
     be_altitude := altitude;
     be_radiusWindowBreak := radiusWindowBreak;
     be_radiusStructuralDamage := radiusStructuralDamage;
     be_radiusSevereDestruction := radiusSevereDestruction;
     be_radiusExtreme := Some radiusExtreme;
     be_severity := severity |}.

(** The early return [if (energy <= 0 || altitude <= 0) return {...}]. *)
Definition blast_none (energy altitude : R) : BlastEffects :=
  {| be_energy := energy;
     be_altitude := altitude;
     be_radiusWindowBreak := 0;
     be_radiusStructuralDamage := 0;
     be_radiusSevereDestruction := 0;
     be_radiusExtreme := None;
     be_severity := "none"%string |}.

(* ------------------------------------------------------------------ *)
(** ** The complete assessment: shared data *)

(** The parameters of [assessNEOImpact].  [material] is taken in its object
    form ([MaterialProperties], the form the map page passes); a string such
    as the default ['stony'] makes [calculateBodyProperties] read the
    [undefined] properties [density] and [strength] of a string, which are
    not real numbers and are outside this model.  [entryAngle] and [options]
    may be [undefined] ([None]). *)
Record NEOParams := mkParams {
  np_vInfinity : R;
  np_diameter : R;
  np_material : Material;
  np_entryAngle : option R;
  np_options : option IntegrationOptions
}.

(** The [outcome] string, by branch of the [if] chain: each constructor
    carries the number that its template formats with [toFixed]. *)
Inductive Outcome :=
  | CompleteAblation                      (* 'Complete ablation in atmosphere' *)
  | AirburstAt (altitude_km : R)          (* 'Airburst at <altitude_km> km altitude' *)
  | GroundImpactAt (velocity percent : R) (* 'Ground impact at <velocity> m/s with <percent>% ...' *)
  | Decelerated.                          (* 'Decelerated to low velocity in atmosphere' *)

Record ScenarioInput := mkInput {
  in_vInfinity : R;
  in_diameter : R;
  in_material : string;
  in_entryAngle : R
}.

(** [NEOImpactScenario]. *)
Record NEOImpactScenario := mkScenario {
  sc_input : ScenarioInput;
  sc_entry : EntryConditions;
  sc_body : BodyProperties;
  sc_trajectory : TrajectoryResult;
  sc_blast : option BlastEffects;
  sc_outcome : Outcome
}.

(** Truthiness of a number that may be [null]: [null] and [0] are falsy. *)
Definition js_truthy (o : option R) : bool :=
  match o with Some x => if Req_EM_T x 0 then false else true | None => false end.

(** A number that may be [null] used in arithmetic: [null] converts to 0. *)
Definition js_num (o : option R) : R :=
  match o with Some x => x | None => 0 end.

(** The body of [assessNEOImpact], given the version's entry, integration
    and blast functions. *)
Definition assess_with
    (calculateEntryConditions : R -> option R -> EntryConditions)
    (integrateTrajectory : EntryConditions -> BodyProperties ->
                           IntegrationOptions -> option TrajectoryResult)
    (estimateBlastEffects : R -> R -> BlastEffects)
    (params : NEOParams) : option NEOImpactScenario :=
  let vInfinity := np_vInfinity params in
  let diameter := np_diameter params in
  let material := np_material params in
  let entryAngle := default_angle (np_entryAngle params) in
  let options := match np_options params with Some o => o | None => no_options end in
  let entry := calculateEntryConditions vInfinity (Some entryAngle) in
  let body := calculateBodyProperties diameter material in
  match integrateTrajectory entry body options with
  | None => None
  | Some trajResult =>
      let impact := tr_impact trajResult in
      let blast :=
        if im_airburst impact && js_truthy (im_airburstEnergy impact)
        then Some (estimateBlastEffects (js_num (im_airburstEnergy impact))
                                        (js_num (im_airburstAltitude impact)))
        else None in
      let outcome :=
        if Req_EM_T (im_mass impact) 0 then CompleteAblation
        else if im_airburst impact
        then AirburstAt (js_num (im_airburstAltitude impact) / 1000)
        else if im_groundImpact impact
        then GroundImpactAt (im_velocity impact) (im_massFraction impact * 100)
        else Decelerated in
      Some {| sc_input := mkInput vInfinity diameter "custom" entryAngle;
              sc_entry := entry;
              sc_body := body;
              sc_trajectory := trajResult;
              sc_blast := blast;
              sc_outcome := outcome |}
  end.

(* ------------------------------------------------------------------ *)
(** ** Trajectory integration, version [src/unnamed/part_005] *)

Module V005.

(** [calculateEntryConditions] of [src/unnamed/part_005]. *)
Definition calculateEntryConditions (vInfinity : R) (entryAngleDeg : option R)
  : EntryConditions :=
  let vEntry :=
    if rlt vInfinity 3 then vInfinity
    else sqrt (vInfinity * vInfinity + V_ESCAPE_EARTH * V_ESCAPE_EARTH) in
  {| ec_velocity := vEntry * 1000;
     ec_vInfinity := vInfinity;
     ec_angle := default_angle entryAngleDeg |}.

Definition MIN_VELOCITY : R := 500.
Definition MAX_FLIGHT_TIME : R := 1800.

(** One execution of the body of [while (h > 0) { ... }]. *)
Definition step (e : LoopEnv) (s : LoopState) : StepResult :=
  let dt := env_dt e in
  let gamma := env_gamma e in
  let initialVelocity := env_initialVelocity e in
  let body := env_body e in
  let h := st_h s in
  let v := st_v s in
  let m := st_m s in
  let rho := atmosphericDensity h in
  let q := dynamicPressure rho v in
  (* fragmentation / breakup *)
  let fire := negb (st_fragmented s) && rgt v 1000 && rgt initialVelocity 1000
              && rge q (bp_strength body) in
  let fragmented := if fire then true else st_fragmented s in
  let airburstAltitude := if fire then Some h else st_airburstAltitude s in
  let energyAtBreakup := (0.5 * m * v * v) / 4.184e15 in
  let airburstEnergy :=
    if fire && rgt energyAtBreakup 0.00001 then Some energyAtBreakup
    else st_airburstEnergy s in
  let A := if fire then st_A s * env_fragMult e else st_A s in
  (* accelerations *)
  let dragAccel := - (env_Cd e * A / (2 * m)) * rho * v * v in
  let gravAccel := - GRAVITY * sin gamma in
  let totalAccel := dragAccel + gravAccel in
  (* ablation, only above 3 km/s *)
  let m1 :=
    if rgt v 3000
    then let dmdt := - (env_lambda e * A / (2 * env_Q e)) * rho * v * v * v in
         Rmax 0 (m + dmdt * dt)
    else m in
  (* Euler update with terminal-velocity mode *)
  let v_new := v + totalAccel * dt in
  let v1 :=
    if rlt v_new MIN_VELOCITY && rgt rho 0 && rgt m1 0
    then let v_terminal := sqrt ((2 * m1 * GRAVITY) / (rho * env_Cd e * A)) in
         Rmin v_terminal 200
    else Rmax 0 v_new in
  let h1 := h - v1 * sin gamma * dt in
  let t1 := st_t s + dt in
  if rle m1 0 && rgt initialVelocity 3000 then
    Break {| st_t := t1; st_h := h1; st_v := v1; st_m := 0; st_A := A;
             st_fragmented := fragmented;
             st_airburstAltitude := airburstAltitude;
             st_airburstEnergy := airburstEnergy;
             st_stepCount := st_stepCount s;
             st_trajectory := st_trajectory s |}
  else
    let m2 := if rle m1 0 && rle initialVelocity 3000 then bp_mass body else m1 in
    let traj := record_step e (st_stepCount s) (st_trajectory s)
                  (mkTS t1 h1 v1 m2 gamma q rho fragmented) in
    let s' := {| st_t := t1; st_h := h1; st_v := v1; st_m := m2; st_A := A;
                 st_fragmented := fragmented;
                 st_airburstAltitude := airburstAltitude;
                 st_airburstEnergy := airburstEnergy;
                 st_stepCount := S (st_stepCount s);
                 st_trajectory := traj |} in
    if rgt t1 MAX_FLIGHT_TIME then Break s' else Continue s'.

(** The [while (h > 0)] loop, with an iteration budget. *)
Fixpoint loop (e : LoopEnv) (fuel : nat) (s : LoopState) : option LoopState :=
  match fuel with
  | O => None
  | S n =>
      if rgt (st_h s) 0 then
        match step e s with
        | Break s' => Some s'
        | Continue s' => loop e n s'
        end
      else Some s
  end.

(** [airburst: fragmented && h > 0 && airburstEnergy !== null && airburstEnergy > 0] *)
Definition airburst_of (s : LoopState) : bool :=
  st_fragmented s && rgt (st_h s) 0 &&
  match st_airburstEnergy s with Some x => rgt x 0 | None => false end.

Definition integrateTrajectory (entry : EntryConditions) (body : BodyProperties)
  (options : IntegrationOptions) : option TrajectoryResult :=
  let e := make_env entry body options in
  match loop e (flight_fuel MAX_FLIGHT_TIME (env_dt e)) (initial_state e) with
  | Some s => Some (finish e airburst_of s)
  | None => None
  end.

(** [estimateBlastEffects] of [src/unnamed/part_005]: window breakage at 2 kPa. *)
Definition estimateBlastEffects (energy altitude : R) : BlastEffects :=
  if rle energy 0 || rle altitude 0 then blast_none energy altitude
  else blast_radii 2000 energy altitude.

(** [assessNEOImpact] of [src/unnamed/part_005]. *)
Definition assessNEOImpact : NEOParams -> option NEOImpactScenario :=
  assess_with calculateEntryConditions integrateTrajectory estimateBlastEffects.

End V005.

(* ------------------------------------------------------------------ *)
(** ** Trajectory integration, version [src/src/services/neoEntryImpact.js] *)

Module Svc.

(** [calculateEntryConditions] of [src/src/services/neoEntryImpact.js]. *)
Definition calculateEntryConditions (vInfinity : R) (entryAngleDeg : option R)
  : EntryConditions :=
  let vEntry :=
    sqrt (vInfinity * vInfinity + V_ESCAPE_EARTH * V_ESCAPE_EARTH) in
  {| ec_velocity := vEntry * 1000;
     ec_vInfinity := vInfinity;
     ec_angle := default_angle entryAngleDeg |}.

Definition MIN_VELOCITY : R := 300.
Definition MAX_FLIGHT_TIME : R := 300.

(** One execution of the body of [while (h > 0 && v > MIN_VELOCITY) { ... }]. *)
Definition step (e : LoopEnv) (s : LoopState) : StepResult :=
  let dt := env_dt e in
  let gamma := env_gamma e in
  let body := env_body e in
  let h := st_h s in
  let v := st_v s in
  let m := st_m s in
  let rho := atmosphericDensity h in
  let q := dynamicPressure rho v in
  let fire := negb (st_fragmented s) && rge q (bp_strength body) in
  let fragmented := if fire then true else st_fragmented s in
  let airburstAltitude := if fire then Some h else st_airburstAltitude s in
  let airburstEnergy :=
    if fire then Some ((0.5 * m * v * v) / 4.184e15) else st_airburstEnergy s in
  let A := if fire then st_A s * env_fragMult e else st_A s in
  let dragAccel := - (env_Cd e * A / (2 * m)) * rho * v * v in
  let gravAccel := - GRAVITY * sin gamma in
  let totalAccel := dragAccel + gravAccel in
  let dmdt := - (env_lambda e * A / (2 * env_Q e)) * rho * v * v * v in
  let v1 := v + totalAccel * dt in
  let h1 := h - v1 * sin gamma * dt in
  let m1 := Rmax 0 (m + dmdt * dt) in
  let t1 := st_t s + dt in
  let v2 := if rlt v1 0 then 0 else v1 in
  if rle m1 0 then
    Break {| st_t := t1; st_h := h1; st_v := v2; st_m := 0; st_A := A;
             st_fragmented := fragmented;
             st_airburstAltitude := airburstAltitude;
             st_airburstEnergy := airburstEnergy;
             st_stepCount := st_stepCount s;
             st_trajectory := st_trajectory s |}
  else
    let traj := record_step e (st_stepCount s) (st_trajectory s)
                  (mkTS t1 h1 v2 m1 gamma q rho fragmented) in
    let s' := {| st_t := t1; st_h := h1; st_v := v2; st_m := m1; st_A := A;
                 st_fragmented := fragmented;
                 st_airburstAltitude := airburstAltitude;
                 st_airburstEnergy := airburstEnergy;
                 st_stepCount := S (st_stepCount s);
                 st_trajectory := traj |} in
    if rgt t1 MAX_FLIGHT_TIME then Break s' else Continue s'.

Fixpoint loop (e : LoopEnv) (fuel : nat) (s : LoopState) : option LoopState :=
  match fuel with
  | O => None
  | S n =>
      if rgt (st_h s) 0 && rgt (st_v s) MIN_VELOCITY then
        match step e s with
        | Break s' => Some s'
        | Continue s' => loop e n s'
        end
      else Some s
  end.

(** [airburst: fragmented && h > 0] *)
Definition airburst_of (s : LoopState) : bool :=
  st_fragmented s && rgt (st_h s) 0.

Definition integrateTrajectory (entry : EntryConditions) (body : BodyProperties)
  (options : IntegrationOptions) : option TrajectoryResult :=
  let e := make_env entry body options in
  match loop e (flight_fuel MAX_FLIGHT_TIME (env_dt e)) (initial_state e) with
  | Some s => Some (finish e airburst_of s)
  | None => None
  end.

(** [estimateBlastEffects] of [src/src/services/neoEntryImpact.js]: window
    breakage at 1 kPa. *)
Definition estimateBlastEffects (energy altitude : R) : BlastEffects :=
  if rle energy 0 || rle altitude 0 then blast_none energy altitude
  else blast_radii 1000 energy altitude.

(** [assessNEOImpact] of [src/src/services/neoEntryImpact.js]. *)
Definition assessNEOImpact : NEOParams -> option NEOImpactScenario :=
  assess_with calculateEntryConditions integrateTrajectory estimateBlastEffects.

End Svc.

(* ------------------------------------------------------------------ *)
(** ** The map page: [neoParams] and the scenario of [MapImpact] *)

(** [vInf] of the [neoParams] memo: the impact speed of the form (m/s)
    converted to a hyperbolic excess speed (km/s), at least 5 km/s. *)
Definition neo_vInfinity (velocity : R) : R :=
  let vEscape := 11.2 in
  let vImpact := velocity / 1000 in
  Rmax 5 (sqrt (Rmax 0 (vImpact * vImpact - vEscape * vEscape))).

(** [materialObj] of the [neoParams] memo, chosen by density. *)
Definition neo_material (density : R) : Material :=
  if rlt density 1500 then mkMaterial density 1e5 (Some "Cometario (hielo)"%string)
  else if rgt density 5000 then mkMaterial density 2e6 (Some "Metálico"%string)
  else mkMaterial density 2e5 (Some "Rocoso"%string).

(** The argument of the [assessNEOImpact] call of [MapImpact]. *)
Definition neo_params (velocity diameter density entryAngle : R) : NEOParams :=
  mkParams (neo_vInfinity velocity) diameter (neo_material density)
    (Some entryAngle)
    (Some (mkOptions None None None None None (Some false) None)).

(** [impactScenario] of [MapImpact] (the services module). *)
Definition map_impactScenario (velocity diameter density entryAngle : R)
  : option NEOImpactScenario :=
  Svc.assessNEOImpact (neo_params velocity diameter density entryAngle).

(** [vInf] of the [neoParams] memo of the map page in [src/unnamed/part_001]:
    below 3 km/s the impact speed is used directly, above it is converted to
    a hyperbolic excess speed of at least 5 km/s as in [MapImpact]. *)
Definition neo_vInfinity_001 (velocity : R) : R :=
  let vImpact := velocity / 1000 in
  if rlt vImpact 3 then vImpact
  else
    let vEscape := 11.2 in
    Rmax 5 (sqrt (Rmax 0 (vImpact * vImpact - vEscape * vEscape))).

(* ------------------------------------------------------------------ *)
(** ** Statements about runs *)

(** [P] holds of the result of a run, whenever the run returns. *)
Definition on_result (o : option TrajectoryResult) (P : TrajectoryResult -> Prop)
  : Prop :=
  match o with Some r => P r | None => True end.

(** The state produced by one execution of the loop body. *)
Definition step_state (r : StepResult) : LoopState :=
  match r with Continue s => s | Break s => s end.

(** Preconditions of the kernel (section 4.2 of the design): positive
    diameter and density, non-negative [vInfinity], angle in (0, 90]. *)
Definition valid_input (vInfinity diameter : R) (material : Material) (angle : R)
  : Prop :=
  0 < diameter /\ 0 < mat_density material /\ 0 <= vInfinity /\
  0 < angle <= 90.

(** A supplied numeric option is positive (an unset one takes its default). *)
Definition pos_or_unset (o : option R) : Prop :=
  match o with Some x => 0 < x | None => True end.

(** The physical coefficients passed as options are positive. *)
Definition valid_options (o : IntegrationOptions) : Prop :=
  pos_or_unset (opt_dt o) /\ pos_or_unset (opt_lambda o) /\
  pos_or_unset (opt_Q o) /\ pos_or_unset (opt_Cd o) /\
  pos_or_unset (opt_fragmentationMultiplier o).

(** Masses of a recorded trajectory never increase from one record to the
    next. *)
Fixpoint mass_nonincreasing (l : list TrajectoryState) : Prop :=
  match l with
  | [] => True
  | x :: l' => Forall (fun y => ts_mass y <= ts_mass x) l' /\ mass_nonincreasing l'
  end.

(** Airburst altitudes are recorded above ground. *)
Definition airburst_above_ground (s : LoopState) : Prop :=
  forall a, st_airburstAltitude s = Some a -> 0 < a.

(** Once the body has fragmented, a positive breakup energy is recorded. *)
Definition fragment_energy_pos (s : LoopState) : Prop :=
  st_fragmented s = true ->
  exists x, st_airburstEnergy s = Some x /\ 0 < x.

(** Once the body has fragmented, the entry speed was above 1000 m/s. *)
Definition fragment_fast_entry (e : LoopEnv) (s : LoopState) : Prop :=
  st_fragmented s = true -> 1000 < env_initialVelocity e.

(** Facts about the loop constants that follow from valid inputs. *)
Definition env_ok (e : LoopEnv) : Prop :=
  0 < env_dt e /\ 0 < env_lambda e /\ 0 < env_Q e /\ 0 < env_Cd e /\
  0 < env_fragMult e /\ 0 < bp_mass (env_body e) /\ 0 <= bp_area (env_body e) /\
  0 <= sin (env_gamma e) /\ 0 <= env_initialVelocity e.

(** The recorded masses never increase and are all at least [m]. *)
Definition traj_ok (l : list TrajectoryState) (m : R) : Prop :=
  mass_nonincreasing l /\ Forall (fun y => m <= ts_mass y) l.

(** Invariant of the [part_005] loop at the test of the loop condition. *)
Definition V005_inv (e : LoopEnv) (s : LoopState) : Prop :=
  0 < st_m s <= bp_mass (env_body e) /\
  0 <= st_v s <= Rmax (env_initialVelocity e) 200 /\
  0 <= st_A s /\
  traj_ok (st_trajectory s) (st_m s).

(** What holds of the [part_005] loop state after the loop. *)
Definition V005_post (e : LoopEnv) (s : LoopState) : Prop :=
  0 <= st_m s <= bp_mass (env_body e) /\
  (st_m s = 0 -> 3000 < env_initialVelocity e) /\
  traj_ok (st_trajectory s) (st_m s).

(** Invariant of the [services] loop at the test of the loop condition. *)
Definition Svc_inv (e : LoopEnv) (s : LoopState) : Prop :=
  0 < st_m s <= bp_mass (env_body e) /\
  0 <= st_A s /\
  traj_ok (st_trajectory s) (st_m s).

(** What holds of the [services] loop state after the loop. *)
Definition Svc_post (e : LoopEnv) (s : LoopState) : Prop :=
  0 <= st_m s <= bp_mass (env_body e) /\
  traj_ok (st_trajectory s) (st_m s).

(** [P] holds of the scenario, whenever the assessment returns. *)
Definition on_scenario (o : option NEOImpactScenario)
  (P : NEOImpactScenario -> Prop) : Prop :=
  match o with Some sc => P sc | None => True end.

(** The radii of a blast estimate are non-negative, the window radius at
    most the 300 km cap. *)
Definition radii_bounded (b : BlastEffects) : Prop :=
  0 <= be_radiusWindowBreak b <= 300 /\ 0 <= be_radiusStructuralDamage b /\
  0 <= be_radiusSevereDestruction b /\
  (forall x, be_radiusExtreme b = Some x -> 0 <= x).

(** All four radii of a blast estimate are set and positive. *)
Definition radii_positive (b : BlastEffects) : Prop :=
  0 < be_radiusWindowBreak b /\ 0 < be_radiusStructuralDamage b /\
  0 < be_radiusSevereDestruction b /\
  exists x, be_radiusExtreme b = Some x /\ 0 < x.

(** The radii of [b] are the ranges of [rangeForOverpressure] at the four
    thresholds, unattenuated (the window range capped at 300 km). *)
Definition radii_unattenuated (p_window energy altitude : R) (b : BlastEffects)
  : Prop :=
  be_radiusWindowBreak b = Rmin (rangeForOverpressure (energy * 1000) altitude p_window) 300 /\
  be_radiusStructuralDamage b = rangeForOverpressure (energy * 1000) altitude 20000 /\
  be_radiusSevereDestruction b = rangeForOverpressure (energy * 1000) altitude 35000 /\
  be_radiusExtreme b = Some (rangeForOverpressure (energy * 1000) altitude 100000).

(** The radii of [b] are strictly below the ranges at the four thresholds
    (the window radius at most the capped range). *)
Definition radii_attenuated (p_window energy altitude : R) (b : BlastEffects)
  : Prop :=
  be_radiusWindowBreak b <= Rmin (rangeForOverpressure (energy * 1000) altitude p_window) 300 /\
  be_radiusWindowBreak b < rangeForOverpressure (energy * 1000) altitude p_window /\
  be_radiusStructuralDamage b < rangeForOverpressure (energy * 1000) altitude 20000 /\
  be_radiusSevereDestruction b < rangeForOverpressure (energy * 1000) altitude 35000 /\
  (forall x, be_radiusExtreme b = Some x ->
     x < rangeForOverpressure (energy * 1000) altitude 100000).

(** The times of a recorded trajectory never decrease from one record to
    the next. *)
Fixpoint times_nondecreasing (l : list TrajectoryState) : Prop :=
  match l with
  | [] => True
  | x :: l' => Forall (fun y => ts_time x <= ts_time y) l' /\ times_nondecreasing l'
  end.

(** The recorded times are ordered and lie in [0, t]. *)
Definition time_ok (l : list TrajectoryState) (t : R) : Prop :=
  times_nondecreasing l /\ Forall (fun y => 0 <= ts_time y <= t) l /\ 0 <= t.

(** In [part_005] the altitude stays at most the entry altitude and below
    a recorded airburst altitude. *)
Definition altitude_ok (s : LoopState) : Prop :=
  st_h s <= H_ENTRY /\
  forall a, st_airburstAltitude s = Some a -> st_h s <= a <= H_ENTRY.

(** A fragmented body has a recorded airburst altitude. *)
Definition fragment_altitude_set (s : LoopState) : Prop :=
  st_fragmented s = true -> st_airburstAltitude s <> None.

(** Airburst altitude and airburst energy are set together. *)
Definition airburst_fields_together (s : LoopState) : Prop :=
  st_airburstAltitude s = None <-> st_airburstEnergy s = None.

(** The [options] of the parameters, [{}] when [undefined]. *)
Definition np_opts (params : NEOParams) : IntegrationOptions :=
  match np_options params with Some o => o | None => no_options end.

(** Valid parameters of [assessNEOImpact]. *)
Definition valid_params (params : NEOParams) : Prop :=
  valid_input (np_vInfinity params) (np_diameter params) (np_material params)
    (default_angle (np_entryAngle params)) /\
  valid_options (np_opts params).

(** A reported airburst has a positive energy and altitude. *)
Definition airburst_facts (im : Impact) : Prop :=
  im_airburst im = true ->
  exists x a, im_airburstEnergy im = Some x /\ 0 < x /\
              im_airburstAltitude im = Some a /\ 0 < a.

(** The [blast] of a scenario is present exactly for an airburst, is built
    from the airburst energy and altitude, and takes the main path of
    [estimateBlastEffects]. *)
Definition blast_consistent (sc : NEOImpactScenario) : Prop :=
  (sc_blast sc <> None <-> im_airburst (tr_impact (sc_trajectory sc)) = true) /\
  forall b, sc_blast sc = Some b ->
    im_airburstEnergy (tr_impact (sc_trajectory sc)) = Some (be_energy b) /\
    im_airburstAltitude (tr_impact (sc_trajectory sc)) = Some (be_altitude b) /\
    0 < be_energy b /\ 0 < be_altitude b /\
    radii_positive b /\ be_severity b <> "none"%string.


(** A recorded trajectory opens with the entry record (time 0, 100 km, the
    entry speed, the full mass) and closes with a record of the final
    altitude, speed and mass of the [impact] summary. *)
Definition recorded_ends (entry : EntryConditions) (body : BodyProperties)
  (r : TrajectoryResult) : Prop :=
  exists first mid last,
    tr_trajectory r = first :: mid ++ [last] /\
    ts_time first = 0 /\ ts_altitude first = H_ENTRY /\
    ts_velocity first = ec_velocity entry /\ ts_mass first = bp_mass body /\
    ts_altitude last = im_altitude (tr_impact r) /\
    ts_velocity last = im_velocity (tr_impact r) /\
    ts_mass last = im_mass (tr_impact r).

(* ------------------------------------------------------------------ *)
(** ** Boolean comparisons *)

Lemma rlt_spec x y : rlt x y = true <-> x < y.
Proof. unfold rlt; destruct (Rlt_dec x y); split; intros; auto; try lra; discriminate. Qed.

Lemma rle_spec x y : rle x y = true <-> x <= y.
Proof. unfold rle; destruct (Rle_dec x y); split; intros; auto; try lra; discriminate. Qed.

Lemma rlt_false x y : rlt x y = false <-> y <= x.
Proof. unfold rlt; destruct (Rlt_dec x y); split; intros; auto; try lra; discriminate. Qed.

Lemma rle_false x y : rle x y = false <-> y < x.
Proof. unfold rle; destruct (Rle_dec x y); split; intros; auto; try lra; discriminate. Qed.

Example literals_ok : RHO_0 = 1225 / 1000 /\ Q_ABLATION = 8000000.
Proof. unfold RHO_0, Q_ABLATION; split; lra. Qed.

Ltac bool_facts :=
  repeat match goal with
  | H : rlt _ _ = true |- _ => apply rlt_spec in H
  | H : rle _ _ = true |- _ => apply rle_spec in H
  | H : rlt _ _ = false |- _ => apply rlt_false in H
  | H : rle _ _ = false |- _ => apply rle_false in H
  | H : rgt _ _ = true |- _ => unfold rgt in H
  | H : rgt _ _ = false |- _ => unfold rgt in H
  | H : rge _ _ = true |- _ => unfold rge in H
  | H : rge _ _ = false |- _ => unfold rge in H
  | H : (_ && _)%bool = true |- _ => apply andb_prop in H; destruct H
  | H : negb _ = true |- _ => apply negb_true_iff in H
  end.

(** Case on the outermost [if] of the goal. *)
Ltac case_if :=
  match goal with
  | |- context [if ?b then _ else _] => destruct b eqn:?
  end.

(** Split every [if] of the goal. *)
Ltac split_ifs :=
  repeat match goal with
  | |- context [if ?b then _ else _] => destruct b eqn:?
  end.

(* ------------------------------------------------------------------ *)
(** ** Loop invariants *)

Lemma V005_loop_invariant (e : LoopEnv) (I J : LoopState -> Prop) :
  (forall s, I s -> J s) ->
  (forall s, I s -> 0 < st_h s ->
     match V005.step e s with Continue s' => I s' | Break s' => J s' end) ->
  forall fuel s s', I s -> V005.loop e fuel s = Some s' -> J s'.
Proof.
  intros HIJ Hstep fuel; induction fuel as [|n IH]; intros s s' HI Hl;
    cbn [V005.loop] in Hl; [discriminate|].
  destruct (rgt (st_h s) 0) eqn:Hg.
  - unfold rgt in Hg; apply rlt_spec in Hg.
    specialize (Hstep s HI Hg).
    destruct (V005.step e s) as [s1|s1]; [exact (IH s1 s' Hstep Hl)|].
    injection Hl as <-; exact Hstep.
  - injection Hl as <-; auto.
Qed.

Lemma Svc_loop_invariant (e : LoopEnv) (I J : LoopState -> Prop) :
  (forall s, I s -> J s) ->
  (forall s, I s -> 0 < st_h s -> Svc.MIN_VELOCITY < st_v s ->
     match Svc.step e s with Continue s' => I s' | Break s' => J s' end) ->
  forall fuel s s', I s -> Svc.loop e fuel s = Some s' -> J s'.
Proof.
  intros HIJ Hstep fuel; induction fuel as [|n IH]; intros s s' HI Hl;
    cbn [Svc.loop] in Hl; [discriminate|].
  destruct (rgt (st_h s) 0 && rgt (st_v s) Svc.MIN_VELOCITY)%bool eqn:Hg.
  - bool_facts.
    specialize (Hstep s HI H H0).
    destruct (Svc.step e s) as [s1|s1]; [exact (IH s1 s' Hstep Hl)|].
    injection Hl as <-; exact Hstep.
  - injection Hl as <-; auto.
Qed.

Lemma V005_on_result entry body opts (I J : LoopState -> Prop)
    (P : TrajectoryResult -> Prop) :
  let e := make_env entry body opts in
  (forall s, I s -> J s) ->
  (forall s, I s -> 0 < st_h s ->
     match V005.step e s with Continue s' => I s' | Break s' => J s' end) ->
  I (initial_state e) ->
  (forall s, J s -> P (finish e V005.airburst_of s)) ->
  on_result (V005.integrateTrajectory entry body opts) P.
Proof.
  intros e HIJ Hstep H0 HP; unfold V005.integrateTrajectory, on_result.
  fold e.
  destruct (V005.loop e _ (initial_state e)) as [s|] eqn:Hl; [|exact Logic.I].
  apply HP; eapply V005_loop_invariant; eauto.
Qed.

Lemma Svc_on_result entry body opts (I J : LoopState -> Prop)
    (P : TrajectoryResult -> Prop) :
  let e := make_env entry body opts in
  (forall s, I s -> J s) ->
  (forall s, I s -> 0 < st_h s -> Svc.MIN_VELOCITY < st_v s ->
     match Svc.step e s with Continue s' => I s' | Break s' => J s' end) ->
  I (initial_state e) ->
  (forall s, J s -> P (finish e Svc.airburst_of s)) ->
  on_result (Svc.integrateTrajectory entry body opts) P.
Proof.
  intros e HIJ Hstep H0 HP; unfold Svc.integrateTrajectory, on_result.
  fold e.
  destruct (Svc.loop e _ (initial_state e)) as [s|] eqn:Hl; [|exact Logic.I].
  apply HP; eapply Svc_loop_invariant; eauto.
Qed.

Lemma V005_step_airburst_above_ground e s :
  airburst_above_ground s -> 0 < st_h s ->
  airburst_above_ground (step_state (V005.step e s)).
Proof.
  intros Hs Hh; unfold V005.step; cbv zeta.
  split_ifs; cbn [step_state st_airburstAltitude]; intros a Ha;
    try (injection Ha as <-; exact Hh); exact (Hs a Ha).
Qed.

Lemma Svc_step_airburst_above_ground e s :
  airburst_above_ground s -> 0 < st_h s ->
  airburst_above_ground (step_state (Svc.step e s)).
Proof.
  intros Hs Hh; unfold Svc.step; cbv zeta.
  split_ifs; cbn [step_state st_airburstAltitude]; intros a Ha;
    try (injection Ha as <-; exact Hh); exact (Hs a Ha).
Qed.

Lemma step_result_cases (P : LoopState -> Prop) (r : StepResult) :
  P (step_state r) -> match r with Continue s' => P s' | Break s' => P s' end.
Proof. destruct r; auto. Qed.

(** The summary's ground-contact and airburst fields read the final altitude. *)
Lemma finish_fields e ab s :
  im_altitude (tr_impact (finish e ab s)) = st_h s /\
  im_groundImpact (tr_impact (finish e ab s)) = rle (st_h s) 0 /\
  im_airburst (tr_impact (finish e ab s)) = ab s /\
  im_airburstAltitude (tr_impact (finish e ab s)) = st_airburstAltitude s /\
  im_airburstEnergy (tr_impact (finish e ab s)) = st_airburstEnergy s /\
  im_mass (tr_impact (finish e ab s)) = st_m s /\
  im_massFraction (tr_impact (finish e ab s)) = st_m s / bp_mass (env_body e).
Proof. repeat split. Qed.

(** Claim C4: when fragmentation fired and the run ends on the ground,
    the recorded airburst altitude is strictly above the final altitude
    (both versions of the integrator). *)
Theorem C4_airburstAltitude_above_final_altitude entry body opts :
  on_result (V005.integrateTrajectory entry body opts)
    (fun r => forall a,
       im_airburstAltitude (tr_impact r) = Some a ->
       im_groundImpact (tr_impact r) = true ->
       im_altitude (tr_impact r) < a) /\
  on_result (Svc.integrateTrajectory entry body opts)
    (fun r => forall a,
       im_airburstAltitude (tr_impact r) = Some a ->
       im_groundImpact (tr_impact r) = true ->
       im_altitude (tr_impact r) < a).
Proof.
  split.
  - apply (V005_on_result _ _ _ airburst_above_ground airburst_above_ground).
    + auto.
    + intros s Hs Hh; apply step_result_cases.
      apply V005_step_airburst_above_ground; auto.
    + intros a Ha; discriminate.
    + intros s Hs a; destruct (finish_fields (make_env entry body opts)
        V005.airburst_of s) as (-> & -> & _ & -> & _).
      intros Ha Hg; apply rle_spec in Hg; specialize (Hs a Ha); lra.
  - apply (Svc_on_result _ _ _ airburst_above_ground airburst_above_ground).
    + auto.
    + intros s Hs Hh _; apply step_result_cases.
      apply Svc_step_airburst_above_ground; auto.
    + intros a Ha; discriminate.
    + intros s Hs a; destruct (finish_fields (make_env entry body opts)
        Svc.airburst_of s) as (-> & -> & _ & -> & _).
      intros Ha Hg; apply rle_spec in Hg; specialize (Hs a Ha); lra.
Qed.

(** Claim C9: no run reports both an airburst and ground contact; a body
    that fragmented and reached the ground reports [airburst = false]
    (both versions of the integrator). *)
Theorem C9_airburst_excludes_groundImpact entry body opts :
  on_result (V005.integrateTrajectory entry body opts)
    (fun r =>
       (im_airburst (tr_impact r) = true -> im_groundImpact (tr_impact r) = false) /\
       (im_airburstAltitude (tr_impact r) <> None ->
        im_groundImpact (tr_impact r) = true -> im_airburst (tr_impact r) = false)) /\
  on_result (Svc.integrateTrajectory entry body opts)
    (fun r =>
       (im_airburst (tr_impact r) = true -> im_groundImpact (tr_impact r) = false) /\
       (im_airburstAltitude (tr_impact r) <> None ->
        im_groundImpact (tr_impact r) = true -> im_airburst (tr_impact r) = false)).
Proof.
  split.
  - apply (V005_on_result _ _ _ (fun _ => True) (fun _ => True)); auto.
    + intros s _ _; destruct (V005.step _ s); exact Logic.I.
    + intros s _; destruct (finish_fields (make_env entry body opts)
        V005.airburst_of s) as (_ & -> & -> & _).
      unfold V005.airburst_of; split; intros.
      * bool_facts. apply rle_false; lra.
      * destruct (rgt (st_h s) 0) eqn:Hh; [|now rewrite andb_false_r].
        bool_facts; lra.
  - apply (Svc_on_result _ _ _ (fun _ => True) (fun _ => True)); auto.
    + intros s _ _ _; destruct (Svc.step _ s); exact Logic.I.
    + intros s _; destruct (finish_fields (make_env entry body opts)
        Svc.airburst_of s) as (_ & -> & -> & _).
      unfold Svc.airburst_of; split; intros.
      * bool_facts. apply rle_false; lra.
      * destruct (rgt (st_h s) 0) eqn:Hh; [|now rewrite andb_false_r].
        bool_facts; lra.
Qed.

(* ------------------------------------------------------------------ *)
(** ** Atmosphere and entry speed *)

(** Claim C8: exponential atmosphere with [rho_0 = 1.225] and scale height
    7200 m above sea level, clamped to [rho_0] below it, and strictly
    decreasing on non-negative altitudes. *)
Theorem C8_atmosphericDensity_exponential_decreasing :
  (forall h, 0 <= h -> atmosphericDensity h = 1.225 * exp (- h / 7200)) /\
  (forall h, h < 0 -> atmosphericDensity h = 1.225) /\
  (forall h1 h2, 0 <= h1 -> h1 < h2 ->
     atmosphericDensity h1 > atmosphericDensity h2).
Proof.
  unfold atmosphericDensity, RHO_0, SCALE_HEIGHT.
  repeat split.
  - intros h Hh; destruct (rlt h 0) eqn:E; bool_facts; [lra|reflexivity].
  - intros h Hh; destruct (rlt h 0) eqn:E; bool_facts; [reflexivity|lra].
  - intros h1 h2 H1 H12.
    destruct (rlt h1 0) eqn:E1; destruct (rlt h2 0) eqn:E2; bool_facts; try lra.
    apply Rmult_lt_compat_l; [lra|]; apply exp_increasing; lra.
Qed.

Lemma C8_witness :
  atmosphericDensity 1000 > atmosphericDensity 2000 /\
  atmosphericDensity (-5) = 1.225.
Proof.
  destruct C8_atmosphericDensity_exponential_decreasing as (_ & Hneg & Hdec).
  split; [apply Hdec; lra | apply Hneg; lra].
Defined.

(** Claim C1, as the code has it: the [part_005] version has the
    pass-through regime below 3 km/s and the hyperbolic regime above; the
    [services] version always uses the hyperbolic formula. *)
Theorem C1_entry_velocity_by_version (vInfinity : R) (angle : option R) :
  0 <= vInfinity ->
  (vInfinity < 3 ->
     ec_velocity (V005.calculateEntryConditions vInfinity angle) = vInfinity * 1000) /\
  (3 <= vInfinity ->
     ec_velocity (V005.calculateEntryConditions vInfinity angle) =
     sqrt (vInfinity ^ 2 + 11.2 ^ 2) * 1000) /\
  ec_velocity (Svc.calculateEntryConditions vInfinity angle) =
  sqrt (vInfinity ^ 2 + 11.2 ^ 2) * 1000.
Proof.
  intros _; unfold V005.calculateEntryConditions, Svc.calculateEntryConditions,
    V_ESCAPE_EARTH; cbn [ec_velocity].
  repeat split.
  - intros H; destruct (rlt vInfinity 3) eqn:E; bool_facts; [reflexivity|lra].
  - intros H; destruct (rlt vInfinity 3) eqn:E; bool_facts; [lra|].
    f_equal; f_equal; ring.
  - f_equal; f_equal; ring.
Qed.

Lemma C1_witness :
  0 <= 15 /\
  ec_velocity (V005.calculateEntryConditions 15 None) =
  sqrt (15 ^ 2 + 11.2 ^ 2) * 1000.
Proof.
  split; [lra|].
  apply (C1_entry_velocity_by_version 15 None); lra.
Defined.

(** Claim C1 fails for the [services] version: at [vInfinity = 0] the
    velocity is 11200 m/s, not [0 * 1000]. *)
Lemma C1_services_no_pass_through :
  ec_velocity (Svc.calculateEntryConditions 0 None) = 11200 /\
  ec_velocity (Svc.calculateEntryConditions 0 None) <> 0 * 1000.
Proof.
  unfold Svc.calculateEntryConditions, V_ESCAPE_EARTH; cbn [ec_velocity].
  replace (0 * 0 + 11.2 * 11.2) with (11.2 * 11.2) by ring.
  rewrite sqrt_square by lra.
  split; lra.
Qed.

(* ------------------------------------------------------------------ *)
(** ** Blast effects: the early return *)

(** Claim C7, as the code has it: for [energy <= 0] or [altitude <= 0] both
    versions return zero window, structural and severe radii and severity
    ["none"], but no [radiusExtreme] ([undefined]), whereas the main path
    always sets it. *)
Theorem C7_early_return_omits_radiusExtreme :
  (forall energy altitude, energy <= 0 \/ altitude <= 0 ->
     forall b, b = V005.estimateBlastEffects energy altitude \/
               b = Svc.estimateBlastEffects energy altitude ->
     be_radiusWindowBreak b = 0 /\ be_radiusStructuralDamage b = 0 /\
     be_radiusSevereDestruction b = 0 /\ be_severity b = "none"%string /\
     be_radiusExtreme b = None) /\
  (forall energy altitude, 0 < energy -> 0 < altitude ->
     (exists x, be_radiusExtreme (V005.estimateBlastEffects energy altitude) = Some x) /\
     (exists x, be_radiusExtreme (Svc.estimateBlastEffects energy altitude) = Some x)) /\
  be_radiusExtreme (V005.estimateBlastEffects 0 1000) = None.
Proof.
  unfold V005.estimateBlastEffects, Svc.estimateBlastEffects.
  refine (conj _ (conj _ _)).
  - intros en al Hor b Hb.
    assert (Hg : (rle en 0 || rle al 0)%bool = true).
    { destruct Hor as [H|H]; apply orb_true_iff; [left|right]; apply rle_spec; exact H. }
    rewrite Hg in Hb; destruct Hb as [->| ->]; repeat split.
  - intros en al He Ha.
    assert (Hg : (rle en 0 || rle al 0)%bool = false).
    { apply orb_false_iff; split; apply rle_false; assumption. }
    rewrite Hg; split; eexists; reflexivity.
  - assert (Hg : (rle 0 0 || rle 1000 0)%bool = true).
    { apply orb_true_iff; left; apply rle_spec; lra. }
    rewrite Hg; reflexivity.
Qed.

(* ------------------------------------------------------------------ *)
(** ** Mass bookkeeping *)

Lemma atmosphericDensity_pos h : 0 < atmosphericDensity h.
Proof.
  unfold atmosphericDensity, RHO_0.
  destruct (rlt h 0); [lra|]. apply Rmult_lt_0_compat; [lra|apply exp_pos].
Qed.

Lemma traj_ok_weaken l m m' : traj_ok l m -> m' <= m -> traj_ok l m'.
Proof.
  intros [Hn Hf] Hle; split; [exact Hn|].
  eapply Forall_impl; [|exact Hf]; intros y Hy; cbv beta in *; lra.
Qed.

Lemma traj_ok_snoc l m x : traj_ok l m -> ts_mass x <= m -> traj_ok (l ++ [x]) (ts_mass x).
Proof.
  induction l as [|y l IH]; intros [Hn Hf] Hx; cbn [app mass_nonincreasing] in *.
  - split; [split; [constructor|exact Logic.I]|constructor; [lra|constructor]].
  - inversion Hf as [|? ? Hy Hf']; subst; destruct Hn as [Hyl Hn].
    destruct (IH (conj Hn Hf') Hx) as [IHn IHf].
    split; [split; [|exact IHn]|constructor; [lra|exact IHf]].
    apply Forall_app; split; [exact Hyl|constructor; [lra|constructor]].
Qed.

Lemma record_step_ok e n l x m :
  traj_ok l m -> ts_mass x <= m -> traj_ok (record_step e n l x) (ts_mass x).
Proof.
  intros Hl Hx; unfold record_step.
  case_if; [apply (traj_ok_snoc l m x Hl Hx)|].
  eapply traj_ok_weaken; eassumption.
Qed.

Lemma nonneg_div a b : 0 <= a -> 0 < b -> 0 <= a / b.
Proof. intros; unfold Rdiv; apply Rmult_le_pos; [lra|left; apply Rinv_0_lt_compat; lra]. Qed.

Lemma Rmax_0_le x m : 0 <= m -> x <= m -> 0 <= Rmax 0 x <= m.
Proof. intros; unfold Rmax; destruct (Rle_dec 0 x); lra. Qed.

Lemma V005_step_inv e s :
  env_ok e -> V005_inv e s -> 0 < st_h s ->
  match V005.step e s with
  | Continue s' => V005_inv e s'
  | Break s' => V005_post e s'
  end.
Proof.
  intros (Hdt & Hlam & HQ & HCd & Hfm & HM & Harea & Hsin & Hiv)
         (Hm & Hv & HA & Ht) Hh.
  unfold V005.step, V005_post, V005_inv; cbv zeta.
  set (A' := if (_ : bool) then st_A s * env_fragMult e else st_A s).
  set (rho := atmosphericDensity (st_h s)).
  set (m1 := if rgt (st_v s) 3000 then (_ : R) else st_m s).
  set (v1 := if (rlt (_:R) V005.MIN_VELOCITY && (_:bool) && (_:bool))%bool
             then (_:R) else (_:R)).
  assert (HA' : 0 <= A').
  { unfold A'; case_if; [apply Rmult_le_pos|]; lra. }
  assert (Hrho : 0 < rho) by apply atmosphericDensity_pos.
  assert (Hm1 : 0 <= m1 <= st_m s /\ (st_v s <= 3000 -> m1 = st_m s)).
  { unfold m1; destruct (rgt (st_v s) 3000) eqn:Ev; bool_facts; [|split; [lra|auto]].
    split; [|intros; lra].
    apply Rmax_0_le; [lra|].
    assert (0 <= env_lambda e * A' / (2 * env_Q e) * rho * st_v s * st_v s * st_v s
                 * env_dt e).
    { repeat apply Rmult_le_pos; try lra; left; apply Rinv_0_lt_compat; lra. }
    lra. }
  assert (Hv1 : 0 <= v1 <= Rmax (st_v s) 200).
  { assert (Hdrag : 0 <= env_Cd e * A' / (2 * st_m s) * rho * st_v s * st_v s).
    { repeat apply Rmult_le_pos; try lra; left; apply Rinv_0_lt_compat; lra. }
    assert (Hnew : st_v s + (- (env_Cd e * A' / (2 * st_m s)) * rho * st_v s * st_v s
                   + - GRAVITY * sin (env_gamma e)) * env_dt e <= st_v s).
    { unfold GRAVITY; nra. }
    unfold v1; case_if.
    - split.
      + apply Rmin_glb; [apply sqrt_pos|lra].
      + eapply Rle_trans; [apply Rmin_r|apply Rmax_r].
    - split; [apply Rmax_l|].
      eapply Rle_trans; [|apply Rmax_l].
      apply Rmax_lub; lra. }
  clearbody A' rho m1 v1.
  destruct Hm1 as [[Hm1a Hm1b] Hm1c].
  destruct (rle m1 0 && rgt (env_initialVelocity e) 3000)%bool eqn:Hbrk.
  - bool_facts. cbv beta iota; cbn [st_m st_trajectory].
    split; [lra|split; [intros _; lra|]].
    eapply traj_ok_weaken; [exact Ht|lra].
  - destruct (rle m1 0 && rle (env_initialVelocity e) 3000)%bool eqn:Hreset.
    + exfalso; bool_facts.
      assert (m1 <> st_m s) by lra.
      assert (3000 < st_v s) by (destruct (Rle_dec (st_v s) 3000); [exfalso; auto|lra]).
      unfold Rmax in Hv; destruct (Rle_dec _ _); lra.
    + assert (Hpos : 0 < m1).
      { destruct (rle m1 0) eqn:E; bool_facts; [|lra].
        rewrite andb_true_l in Hbrk, Hreset. bool_facts; lra. }
      assert (Hvmax : Rmax (st_v s) 200 <= Rmax (env_initialVelocity e) 200).
      { apply Rmax_lub; [lra|apply Rmax_r]. }
      assert (Htr := record_step_ok e (st_stepCount s) (st_trajectory s)
        (mkTS (st_t s + env_dt e) (st_h s - v1 * sin (env_gamma e) * env_dt e) v1 m1
          (env_gamma e) (dynamicPressure rho (st_v s)) rho
          (if (negb (st_fragmented s) && rgt (st_v s) 1000 &&
               rgt (env_initialVelocity e) 1000 &&
               rge (dynamicPressure rho (st_v s)) (bp_strength (env_body e)))%bool
           then true else st_fragmented s)) (st_m s) Ht Hm1b).
      cbn [ts_mass] in Htr.
      destruct (rgt (st_t s + env_dt e) V005.MAX_FLIGHT_TIME); cbv beta iota;
        cbn [st_m st_v st_A st_trajectory].
      * split; [lra|split; [intros; lra|exact Htr]].
      * split; [lra|split; [lra|split; [exact HA'|exact Htr]]].
Qed.

Lemma Svc_step_inv e s :
  env_ok e -> Svc_inv e s -> 0 < st_h s -> Svc.MIN_VELOCITY < st_v s ->
  match Svc.step e s with
  | Continue s' => Svc_inv e s'
  | Break s' => Svc_post e s'
  end.
Proof.
  intros (Hdt & Hlam & HQ & HCd & Hfm & HM & Harea & Hsin & Hiv)
         (Hm & HA & Ht) Hh Hv.
  unfold Svc.MIN_VELOCITY in Hv.
  unfold Svc.step, Svc_post, Svc_inv; cbv zeta.
  set (A' := if (_ : bool) then st_A s * env_fragMult e else st_A s).
  set (rho := atmosphericDensity (st_h s)).
  set (m1 := Rmax 0 (st_m s + _)).
  assert (HA' : 0 <= A').
  { unfold A'; case_if; [apply Rmult_le_pos|]; lra. }
  assert (Hrho : 0 < rho) by apply atmosphericDensity_pos.
  assert (Hm1 : 0 <= m1 <= st_m s).
  { apply Rmax_0_le; [lra|].
    assert (0 <= env_lambda e * A' / (2 * env_Q e) * rho * st_v s * st_v s * st_v s
                 * env_dt e).
    { repeat apply Rmult_le_pos; try lra; left; apply Rinv_0_lt_compat; lra. }
    lra. }
  clearbody A' rho m1.
  destruct (rle m1 0) eqn:Hbrk.
  - cbv beta iota; cbn [st_m st_trajectory].
    split; [lra|]. eapply traj_ok_weaken; [exact Ht|lra].
  - bool_facts.
    match goal with
    | |- context [record_step e (st_stepCount s) (st_trajectory s) ?x] =>
        assert (Htr := record_step_ok e (st_stepCount s) (st_trajectory s) x
                         (st_m s) Ht)
    end.
    cbn [ts_mass] in Htr; specialize (Htr (proj2 Hm1)).
    case_if; cbv beta iota; cbn [st_m st_A st_trajectory].
    + split; [lra|exact Htr].
    + split; [lra|split; [exact HA'|exact Htr]].
Qed.

(* ------------------------------------------------------------------ *)
(** ** From valid inputs to the loop constants *)

Lemma js_or_pos o d : pos_or_unset o -> 0 < d -> 0 < js_or o d.
Proof.
  destruct o as [x|]; cbn; intros; [|assumption].
  destruct (Req_EM_T x 0); assumption.
Qed.

Lemma body_mass_pos d mat :
  0 < d -> 0 < mat_density mat -> 0 < bp_mass (calculateBodyProperties d mat).
Proof.
  intros Hd Hrho; cbn [calculateBodyProperties bp_mass].
  assert (0 < PI) by apply PI_RGT_0.
  assert (0 < d / 2) by lra.
  assert (0 < 4 / 3 * PI) by lra.
  apply Rmult_lt_0_compat; [lra|].
  repeat (apply Rmult_lt_0_compat; [|lra]); lra.
Qed.

Lemma body_area_nonneg d mat : 0 <= bp_area (calculateBodyProperties d mat).
Proof.
  cbn [calculateBodyProperties bp_area].
  assert (0 < PI) by apply PI_RGT_0.
  assert (0 <= d / 2 * (d / 2)) by nra. nra.
Qed.

Lemma entry_angle_sin_nonneg ang : 0 < ang <= 90 -> 0 <= sin (toRadians ang).
Proof.
  intros Ha; unfold toRadians.
  assert (0 < PI) by apply PI_RGT_0.
  apply sin_ge_0; [|apply (Rmult_le_reg_r 180); [lra|]];
    unfold Rdiv; [apply Rmult_le_pos; [nra|left; apply Rinv_0_lt_compat; lra]|].
  rewrite Rmult_assoc, Rinv_l by lra; nra.
Qed.

Lemma env_ok_make entry vInf d mat ang opts :
  valid_input vInf d mat ang -> valid_options opts ->
  0 <= ec_velocity entry -> ec_angle entry = ang ->
  env_ok (make_env entry (calculateBodyProperties d mat) opts).
Proof.
  intros (Hd & Hrho & Hv & Ha) (Odt & Olam & OQ & OCd & Ofm) Hve Hae.
  unfold env_ok, make_env; cbn [env_dt env_lambda env_Q env_Cd env_fragMult
    env_body env_gamma env_initialVelocity].
  rewrite Hae.
  unfold LAMBDA, Q_ABLATION, C_D.
  repeat split; try (apply js_or_pos; [assumption|lra]);
    auto using body_mass_pos, body_area_nonneg, entry_angle_sin_nonneg.
Qed.

Lemma V005_entry_velocity_nonneg vInf ang :
  0 <= vInf -> 0 <= ec_velocity (V005.calculateEntryConditions vInf ang).
Proof.
  intros Hv; unfold V005.calculateEntryConditions; cbn [ec_velocity].
  case_if; [lra|]. apply Rmult_le_pos; [apply sqrt_pos|lra].
Qed.

Lemma Svc_entry_velocity_nonneg vInf ang :
  0 <= ec_velocity (Svc.calculateEntryConditions vInf ang).
Proof.
  unfold Svc.calculateEntryConditions; cbn [ec_velocity].
  apply Rmult_le_pos; [apply sqrt_pos|lra].
Qed.

Lemma traj_ok_initial e : traj_ok (st_trajectory (initial_state e)) (st_m (initial_state e)).
Proof.
  unfold initial_state; cbn [st_trajectory st_m].
  case_if; split; cbn [mass_nonincreasing].
  - split; [constructor|exact Logic.I].
  - constructor; [cbn [ts_mass]; lra|constructor].
  - exact Logic.I.
  - constructor.
Qed.

Lemma finish_traj_ok e ab s :
  traj_ok (st_trajectory s) (st_m s) ->
  mass_nonincreasing (tr_trajectory (finish e ab s)).
Proof.
  intros Ht; unfold finish; cbn [tr_trajectory].
  case_if; [|apply Ht].
  match goal with |- mass_nonincreasing (_ ++ [?x]) =>
    apply (traj_ok_snoc _ (st_m s) x Ht); cbn; lra end.
Qed.

Lemma mass_fraction_bounds m M : 0 <= m <= M -> 0 < M -> 0 <= m / M <= 1.
Proof.
  intros Hm HM; split.
  - apply nonneg_div; lra.
  - apply (Rmult_le_reg_r M); [lra|]. unfold Rdiv; rewrite Rmult_assoc, Rinv_l by lra. lra.
Qed.

Lemma V005_inv_initial e : env_ok e -> V005_inv e (initial_state e).
Proof.
  intros (_ & _ & _ & _ & _ & HM & Harea & _ & Hiv).
  unfold V005_inv; cbn [initial_state st_m st_v st_A].
  split; [lra|split; [split; [lra|apply Rmax_l]|split; [lra|]]].
  apply traj_ok_initial.
Qed.

Lemma Svc_inv_initial e : env_ok e -> Svc_inv e (initial_state e).
Proof.
  intros (_ & _ & _ & _ & _ & HM & Harea & _ & _).
  unfold Svc_inv; cbn [initial_state st_m st_A].
  split; [lra|split; [lra|]].
  apply traj_ok_initial.
Qed.

Lemma V005_run_post vInf d mat ang opts (P : TrajectoryResult -> Prop) :
  valid_input vInf d mat ang -> valid_options opts ->
  (forall s, V005_post (make_env (V005.calculateEntryConditions vInf (Some ang))
               (calculateBodyProperties d mat) opts) s ->
     P (finish (make_env (V005.calculateEntryConditions vInf (Some ang))
               (calculateBodyProperties d mat) opts) V005.airburst_of s)) ->
  on_result (V005.integrateTrajectory (V005.calculateEntryConditions vInf (Some ang))
               (calculateBodyProperties d mat) opts) P.
Proof.
  intros Hin Hopt HP.
  assert (Henv : env_ok (make_env (V005.calculateEntryConditions vInf (Some ang))
                   (calculateBodyProperties d mat) opts)).
  { apply (env_ok_make _ vInf d mat ang opts Hin Hopt); [|reflexivity].
    apply V005_entry_velocity_nonneg; apply Hin. }
  apply (V005_on_result _ _ _ (V005_inv (make_env (V005.calculateEntryConditions vInf (Some ang))
                   (calculateBodyProperties d mat) opts)) (V005_post (make_env (V005.calculateEntryConditions vInf (Some ang))
                   (calculateBodyProperties d mat) opts))).
  - intros s (Hm & _ & _ & Ht); split; [lra|split; [intros; lra|exact Ht]].
  - intros s Hs Hh; apply V005_step_inv; assumption.
  - apply V005_inv_initial; exact Henv.
  - exact HP.
Qed.

Lemma Svc_run_post vInf d mat ang opts (P : TrajectoryResult -> Prop) :
  valid_input vInf d mat ang -> valid_options opts ->
  (forall s, Svc_post (make_env (Svc.calculateEntryConditions vInf (Some ang))
               (calculateBodyProperties d mat) opts) s ->
     P (finish (make_env (Svc.calculateEntryConditions vInf (Some ang))
               (calculateBodyProperties d mat) opts) Svc.airburst_of s)) ->
  on_result (Svc.integrateTrajectory (Svc.calculateEntryConditions vInf (Some ang))
               (calculateBodyProperties d mat) opts) P.
Proof.
  intros Hin Hopt HP.
  assert (Henv : env_ok (make_env (Svc.calculateEntryConditions vInf (Some ang))
                   (calculateBodyProperties d mat) opts)).
  { apply (env_ok_make _ vInf d mat ang opts Hin Hopt); [|reflexivity].
    apply Svc_entry_velocity_nonneg. }
  apply (Svc_on_result _ _ _ (Svc_inv (make_env (Svc.calculateEntryConditions vInf (Some ang))
                   (calculateBodyProperties d mat) opts)) (Svc_post (make_env (Svc.calculateEntryConditions vInf (Some ang))
                   (calculateBodyProperties d mat) opts))).
  - intros s (Hm & _ & Ht); split; [lra|exact Ht].
  - intros s Hs Hh Hv; apply Svc_step_inv; assumption.
  - apply Svc_inv_initial; exact Henv.
  - exact HP.
Qed.

(** Claim C2: for valid inputs (and positive coefficients when options are
    supplied), the final [massFraction] lies in [0, 1] and the masses
    recorded along the trajectory never increase (both versions). *)
Theorem C2_massFraction_bounded_and_nonincreasing
    (vInfinity diameter : R) (material : Material) (angle : R)
    (options : IntegrationOptions) :
  valid_input vInfinity diameter material angle ->
  valid_options options ->
  on_result (V005.integrateTrajectory
               (V005.calculateEntryConditions vInfinity (Some angle))
               (calculateBodyProperties diameter material) options)
    (fun r => 0 <= im_massFraction (tr_impact r) <= 1 /\
              mass_nonincreasing (tr_trajectory r)) /\
  on_result (Svc.integrateTrajectory
               (Svc.calculateEntryConditions vInfinity (Some angle))
               (calculateBodyProperties diameter material) options)
    (fun r => 0 <= im_massFraction (tr_impact r) <= 1 /\
              mass_nonincreasing (tr_trajectory r)).
Proof.
  intros Hin Hopt.
  assert (HM := body_mass_pos diameter material (proj1 Hin) (proj1 (proj2 Hin))).
  split.
  - apply V005_run_post; [exact Hin|exact Hopt|].
    intros s (Hm & _ & Ht); split.
    + cbn [finish tr_impact im_massFraction env_body make_env].
      apply mass_fraction_bounds; assumption.
    + apply finish_traj_ok; exact Ht.
  - apply Svc_run_post; [exact Hin|exact Hopt|].
    intros s (Hm & Ht); split.
    + cbn [finish tr_impact im_massFraction env_body make_env].
      apply mass_fraction_bounds; assumption.
    + apply finish_traj_ok; exact Ht.
Qed.

Lemma C2_witness :
  let stony := mkMaterial 3000 2e5 (Some "stony"%string) in
  let opts := mkOptions None None None None None (Some true) (Some 1%nat) in
  valid_input 15 50 stony 45 /\ valid_options opts /\
  on_result (V005.integrateTrajectory (V005.calculateEntryConditions 15 (Some 45))
               (calculateBodyProperties 50 stony) opts)
    (fun r => 0 <= im_massFraction (tr_impact r) <= 1 /\
              mass_nonincreasing (tr_trajectory r)).
Proof.
  intros stony opts.
  assert (Hin : valid_input 15 50 stony 45) by (unfold valid_input; cbn; lra).
  assert (Hopt : valid_options opts) by (repeat split).
  split; [exact Hin|split; [exact Hopt|]].
  exact (proj1 (C2_massFraction_bounded_and_nonincreasing 15 50 stony 45 opts Hin Hopt)).
Defined.

(* ------------------------------------------------------------------ *)
(** ** Termination *)

Lemma V005_step_time e s :
  match V005.step e s with
  | Continue s' => st_t s' = st_t s + env_dt e /\ st_t s' <= V005.MAX_FLIGHT_TIME
  | Break _ => True
  end.
Proof.
  unfold V005.step; cbv zeta.
  split_ifs; try exact Logic.I; cbn [st_t]; bool_facts; (split; [reflexivity|lra]).
Qed.

Lemma Svc_step_time e s :
  match Svc.step e s with
  | Continue s' => st_t s' = st_t s + env_dt e /\ st_t s' <= Svc.MAX_FLIGHT_TIME
  | Break _ => True
  end.
Proof.
  unfold Svc.step; cbv zeta.
  split_ifs; try exact Logic.I; cbn [st_t]; bool_facts; (split; [reflexivity|lra]).
Qed.

Lemma V005_loop_some e n s :
  st_t s <= V005.MAX_FLIGHT_TIME ->
  V005.MAX_FLIGHT_TIME < st_t s + INR n * env_dt e ->
  V005.loop e n s <> None.
Proof.
  revert s; induction n as [|n IH]; intros s Ht Hn.
  - cbn [INR] in Hn; lra.
  - cbn [V005.loop]; destruct (rgt (st_h s) 0); [|discriminate].
    pose proof (V005_step_time e s) as Hs.
    destruct (V005.step e s) as [s1|s1]; [|discriminate].
    destruct Hs as [Ht1 Hle]; apply IH; [exact Hle|].
    rewrite Ht1; rewrite S_INR in Hn; lra.
Qed.

Lemma Svc_loop_some e n s :
  st_t s <= Svc.MAX_FLIGHT_TIME ->
  Svc.MAX_FLIGHT_TIME < st_t s + INR n * env_dt e ->
  Svc.loop e n s <> None.
Proof.
  revert s; induction n as [|n IH]; intros s Ht Hn.
  - cbn [INR] in Hn; lra.
  - cbn [Svc.loop]; destruct (rgt (st_h s) 0 && rgt (st_v s) Svc.MIN_VELOCITY)%bool;
      [|discriminate].
    pose proof (Svc_step_time e s) as Hs.
    destruct (Svc.step e s) as [s1|s1]; [|discriminate].
    destruct Hs as [Ht1 Hle]; apply IH; [exact Hle|].
    rewrite Ht1; rewrite S_INR in Hn; lra.
Qed.

(** [flight_fuel cutoff dt] steps of length [dt] take the clock past [cutoff]. *)
Lemma flight_fuel_enough cutoff dt :
  0 < dt -> 0 <= cutoff -> cutoff < INR (flight_fuel cutoff dt) * dt.
Proof.
  intros Hdt Hc; unfold flight_fuel.
  destruct (archimed (cutoff / dt)) as [H1 _].
  assert (Hq : 0 <= cutoff / dt) by (apply nonneg_div; lra).
  assert (Hz : (0 <= up (cutoff / dt))%Z)
    by (apply le_IZR; lra).
  rewrite INR_IZR_INZ, Z2Nat.id by exact Hz.
  apply Rmult_lt_compat_r with (r := dt) in H1; [|exact Hdt].
  unfold Rdiv in H1; rewrite Rmult_assoc, Rinv_l in H1 by lra; lra.
Qed.

(** Claim C6: with a positive time step (unset, defaulting to 0.05 s, or
    supplied positive) each pass of the loop that goes on adds [dt] to the
    clock and leaves it at most at the cutoff (1800 s in [part_005], 300 s
    in the services module), and the loop leaves through its own tests
    within [up (cutoff / dt)] passes: the integrator always returns. *)
Theorem C6_integrateTrajectory_terminates
    (entry : EntryConditions) (body : BodyProperties)
    (options : IntegrationOptions) :
  pos_or_unset (opt_dt options) ->
  let e := make_env entry body options in
  (forall s s', V005.step e s = Continue s' ->
     st_t s' = st_t s + env_dt e /\ st_t s' <= 1800) /\
  (forall s s', Svc.step e s = Continue s' ->
     st_t s' = st_t s + env_dt e /\ st_t s' <= 300) /\
  V005.integrateTrajectory entry body options <> None /\
  Svc.integrateTrajectory entry body options <> None.
Proof.
  intros Hdt e.
  assert (Hpos : 0 < env_dt e) by (apply js_or_pos; [exact Hdt|lra]).
  split; [|split; [|split]].
  - intros s s' Hs; pose proof (V005_step_time e s) as H; rewrite Hs in H; exact H.
  - intros s s' Hs; pose proof (Svc_step_time e s) as H; rewrite Hs in H; exact H.
  - unfold V005.integrateTrajectory; fold e.
    destruct (V005.loop e _ _) eqn:Hl; [discriminate|].
    exfalso; revert Hl; apply V005_loop_some; cbn [initial_state st_t];
      unfold V005.MAX_FLIGHT_TIME; [lra|].
    pose proof (flight_fuel_enough 1800 (env_dt e) Hpos ltac:(lra)); lra.
  - unfold Svc.integrateTrajectory; fold e.
    destruct (Svc.loop e _ _) eqn:Hl; [discriminate|].
    exfalso; revert Hl; apply Svc_loop_some; cbn [initial_state st_t];
      unfold Svc.MAX_FLIGHT_TIME; [lra|].
    pose proof (flight_fuel_enough 300 (env_dt e) Hpos ltac:(lra)); lra.
Qed.

Lemma C6_witness :
  pos_or_unset (opt_dt no_options) /\
  V005.integrateTrajectory (V005.calculateEntryConditions 20 None)
    (calculateBodyProperties 100 (mkMaterial 3000 2e5 None)) no_options <> None.
Proof.
  assert (H : pos_or_unset (opt_dt no_options)) by exact Logic.I.
  split; [exact H|].
  exact (proj1 (proj2 (proj2 (C6_integrateTrajectory_terminates
    (V005.calculateEntryConditions 20 None)
    (calculateBodyProperties 100 (mkMaterial 3000 2e5 None)) no_options H)))).
Defined.

(* ------------------------------------------------------------------ *)
(** ** Fragmentation *)

(** A pass of the [part_005] loop that sets [fragmented] ran with both the
    current and the entry speed above 1000 m/s. *)
Lemma V005_step_fire_speeds e s :
  st_fragmented s = false ->
  st_fragmented (step_state (V005.step e s)) = true ->
  1000 < st_v s /\ 1000 < env_initialVelocity e.
Proof.
  intros Hf; unfold V005.step; cbv zeta.
  split_ifs; cbn [step_state st_fragmented]; intros Hf'; bool_facts;
    try congruence; split; lra.
Qed.

Lemma V005_step_fast_entry e s :
  fragment_fast_entry e s -> fragment_fast_entry e (step_state (V005.step e s)).
Proof.
  unfold fragment_fast_entry; intros Hs; unfold V005.step; cbv zeta.
  split_ifs; cbn [step_state st_fragmented]; intros Hf'; bool_facts;
    first [exact (Hs Hf') | lra].
Qed.

Lemma Svc_step_energy_pos e s :
  0 < st_m s -> Svc.MIN_VELOCITY < st_v s ->
  fragment_energy_pos s -> fragment_energy_pos (step_state (Svc.step e s)).
Proof.
  unfold fragment_energy_pos, Svc.MIN_VELOCITY; intros Hm Hv Hs.
  assert (HE : 0 < 0.5 * st_m s * st_v s * st_v s / 4.184e15).
  { unfold Rdiv; apply Rmult_lt_0_compat; [|apply Rinv_0_lt_compat; lra].
    apply Rmult_lt_0_compat; [apply Rmult_lt_0_compat; [apply Rmult_lt_0_compat|]|]; lra. }
  unfold Svc.step; cbv zeta.
  split_ifs; cbn [step_state st_fragmented st_airburstEnergy]; intros Hf';
    first [exact (Hs Hf') | exists (0.5 * st_m s * st_v s * st_v s / 4.184e15); split; [reflexivity|exact HE]].
Qed.

Lemma exp_nat n : exp (INR n) = exp 1 ^ n.
Proof.
  induction n as [|n IH]; [cbn; apply exp_0|].
  rewrite S_INR, exp_plus, IH; cbn [pow]; ring.
Qed.

(** The density at the entry altitude of 100 km, between two rational bounds. *)
Lemma rho_entry_bounds :
  1.225 / 3 ^ 14 <= atmosphericDensity H_ENTRY <= 1.225 / 2 ^ 13.
Proof.
  unfold atmosphericDensity, H_ENTRY, RHO_0, SCALE_HEIGHT.
  destruct (rlt 100000 0) eqn:E; [apply rlt_spec in E; lra|].
  match goal with |- context [exp ?x] => replace x with (- (100000 / 7200)) by field end.
  rewrite exp_Ropp.
  assert (H2 : 2 <= exp 1) by (pose proof (exp_ineq1 1); lra).
  assert (H3 := exp_le_3).
  assert (Hlo : exp (INR 13) <= exp (100000 / 7200)).
  { left; apply exp_increasing; cbn [INR]; lra. }
  assert (Hhi : exp (100000 / 7200) <= exp (INR 14)).
  { left; apply exp_increasing; cbn [INR]; lra. }
  rewrite exp_nat in Hlo, Hhi.
  assert (P2 : 2 ^ 13 <= exp 1 ^ 13) by (apply pow_incr; lra).
  assert (P3 : exp 1 ^ 14 <= 3 ^ 14) by (apply pow_incr; lra).
  assert (Z2 : 0 < 2 ^ 13) by (apply pow_lt; lra).
  unfold Rdiv; split; apply Rmult_le_compat_l; try lra;
    apply Rinv_le_contravar; lra.
Qed.

(** A pass of the services loop that starts unfragmented with
    [q >= strength] and ends past the cutoff fragments, stops the loop, and
    leaves the body above ground when [v * dt < h]. *)
Lemma Svc_step_fire_break e s :
  env_ok e -> 0 < st_m s -> 0 <= st_A s -> st_fragmented s = false ->
  bp_strength (env_body e) <= dynamicPressure (atmosphericDensity (st_h s)) (st_v s) ->
  Svc.MAX_FLIGHT_TIME < st_t s + env_dt e ->
  0 <= st_v s -> st_v s * env_dt e < st_h s ->
  exists s', Svc.step e s = Break s' /\ st_fragmented s' = true /\ 0 < st_h s'.
Proof.
  intros (Hdt & Hlam & HQ & HCd & Hfm & HM & Harea & Hsin & Hiv) Hm HA Hf Hq Ht Hv Hvh.
  assert (Hsin1 := proj2 (SIN_bound (env_gamma e))).
  assert (Hfire : (negb (st_fragmented s) &&
            rge (dynamicPressure (atmosphericDensity (st_h s)) (st_v s))
                (bp_strength (env_body e)))%bool = true).
  { rewrite Hf; unfold rge; cbn [negb andb]; apply rle_spec; exact Hq. }
  assert (Htm : rgt (st_t s + env_dt e) Svc.MAX_FLIGHT_TIME = true)
    by (unfold rgt; apply rlt_spec; exact Ht).
  unfold Svc.step; cbv zeta; rewrite Hfire, Htm; cbv iota.
  set (rho := atmosphericDensity (st_h s)).
  assert (Hrho : 0 < rho) by apply atmosphericDensity_pos.
  set (A' := st_A s * env_fragMult e).
  assert (HA' : 0 <= A') by (unfold A'; apply Rmult_le_pos; lra).
  set (v1 := st_v s + _ * env_dt e).
  assert (Hv1 : v1 <= st_v s).
  { unfold v1.
    assert (0 <= env_Cd e * A' / (2 * st_m s) * rho * st_v s * st_v s).
    { repeat apply Rmult_le_pos; try lra; left; apply Rinv_0_lt_compat; lra. }
    assert (0 <= GRAVITY * sin (env_gamma e)) by (unfold GRAVITY; nra).
    nra. }
  assert (Hh1 : 0 < st_h s - v1 * sin (env_gamma e) * env_dt e).
  { destruct (Rle_or_lt 0 v1).
    - assert (v1 * sin (env_gamma e) <= st_v s) by nra.
      assert (v1 * sin (env_gamma e) * env_dt e <= st_v s * env_dt e)
        by (apply Rmult_le_compat_r; lra).
      lra.
    - assert (v1 * sin (env_gamma e) <= 0) by nra.
      assert (v1 * sin (env_gamma e) * env_dt e <= 0) by nra.
      assert (0 <= st_v s * env_dt e) by nra; lra. }
  clearbody rho A' v1.
  destruct (rle _ 0); eexists; (split; [reflexivity|]); cbn [st_fragmented st_h];
    (split; [reflexivity|exact Hh1]).
Qed.

Lemma js_or_some x d : x <> 0 -> js_or (Some x) d = x.
Proof. intros Hx; cbn; destruct (Req_EM_T x 0); [contradiction|reflexivity]. Qed.

(** The services loop with an extra invariant [K] kept by every pass. *)
Lemma Svc_run_with vInf d mat ang opts (K : LoopState -> Prop)
    (P : TrajectoryResult -> Prop) :
  let e := make_env (Svc.calculateEntryConditions vInf (Some ang))
             (calculateBodyProperties d mat) opts in
  valid_input vInf d mat ang -> valid_options opts ->
  (forall s, Svc_inv e s -> K s -> 0 < st_h s -> Svc.MIN_VELOCITY < st_v s ->
     K (step_state (Svc.step e s))) ->
  K (initial_state e) ->
  (forall s, Svc_post e s -> K s -> P (finish e Svc.airburst_of s)) ->
  on_result (Svc.integrateTrajectory (Svc.calculateEntryConditions vInf (Some ang))
               (calculateBodyProperties d mat) opts) P.
Proof.
  intros e Hin Hopt HK HK0 HP.
  assert (Henv : env_ok e).
  { apply (env_ok_make _ vInf d mat ang opts Hin Hopt); [|reflexivity].
    apply Svc_entry_velocity_nonneg. }
  apply (Svc_on_result _ _ _ (fun s => Svc_inv e s /\ K s)
                             (fun s => Svc_post e s /\ K s)).
  - intros s ((Hm & _ & Ht) & Hk); split; [split; [lra|exact Ht]|exact Hk].
  - intros s (Hs & Hk) Hh Hv.
    pose proof (Svc_step_inv e s Henv Hs Hh Hv) as H1.
    pose proof (HK s Hs Hk Hh Hv) as H2.
    fold e; destruct (Svc.step e s); cbv beta iota; cbn [step_state] in H2; split; assumption.
  - split; [apply Svc_inv_initial; exact Henv|exact HK0].
  - intros s (Hs & Hk); apply HP; assumption.
Qed.

(** Claim C3 (counterexample): in the services module, a body entering at
    310 m/s whose strength (0.001 Pa) is below the dynamic pressure at
    100 km fragments on the first pass, at 310 m/s, and with a 301 s time
    step that pass ends the run above ground, so [airburst] is true
    although neither speed exceeded 1000 m/s. *)
Lemma C3_services_fragments_at_310_m_s :
  let entry := mkEntry 310 0.31 45 in
  let body := calculateBodyProperties 1 (mkMaterial 3000 0.001 None) in
  let opts := mkOptions (Some 301) None None None None None None in
  let e := make_env entry body opts in
  st_fragmented (initial_state e) = false /\
  st_v (initial_state e) = 310 /\ env_initialVelocity e = 310 /\
  st_fragmented (step_state (Svc.step e (initial_state e))) = true /\
  exists r, Svc.integrateTrajectory entry body opts = Some r /\
            im_airburst (tr_impact r) = true.
Proof.
  intros entry body opts e.
  assert (Hin : valid_input 0.31 1 (mkMaterial 3000 0.001 None) 45)
    by (unfold valid_input; cbn; lra).
  assert (Hopt : valid_options opts) by (unfold valid_options; cbn; repeat split; lra).
  assert (Henv : env_ok e).
  { apply (env_ok_make entry 0.31 1 _ 45 opts Hin Hopt); cbn; [lra|reflexivity]. }
  assert (Hdt : env_dt e = 301) by (apply js_or_some; lra).
  assert (HM := body_mass_pos 1 (mkMaterial 3000 0.001 None) ltac:(lra) ltac:(cbn; lra)).
  assert (HA := body_area_nonneg 1 (mkMaterial 3000 0.001 None)).
  destruct rho_entry_bounds as [Hrho _].
  assert (H314 : (3 ^ 14 = 4782969)%R) by ring.
  rewrite H314 in Hrho.
  destruct (Svc_step_fire_break e (initial_state e)) as (s' & Hs & Hf & Hh);
    try exact Henv; cbn [initial_state st_m st_A st_fragmented st_h st_v st_t];
    try exact HM; try exact HA; try reflexivity;
    try rewrite Hdt; unfold Svc.MAX_FLIGHT_TIME, H_ENTRY; try lra;
    try (unfold e, entry, body; cbn [make_env env_initialVelocity ec_velocity
           env_body calculateBodyProperties bp_strength mat_strength]; lra).
  { unfold e, entry, body; cbn [make_env env_initialVelocity ec_velocity
      env_body calculateBodyProperties bp_strength mat_strength].
    unfold dynamicPressure, H_ENTRY in *; lra. }
  split; [reflexivity|split; [reflexivity|split; [reflexivity|]]].
  split; [rewrite Hs; exact Hf|].
  assert (Hfuel : flight_fuel Svc.MAX_FLIGHT_TIME (env_dt e) <> 0%nat).
  { intros H0.
    pose proof (flight_fuel_enough Svc.MAX_FLIGHT_TIME (env_dt e)) as Hf0.
    rewrite H0 in Hf0; cbn [INR] in Hf0; unfold Svc.MAX_FLIGHT_TIME in Hf0.
    rewrite Hdt in Hf0; lra. }
  unfold Svc.integrateTrajectory; fold e.
  destruct (flight_fuel Svc.MAX_FLIGHT_TIME (env_dt e)) as [|n]; [contradiction|].
  cbn [Svc.loop].
  assert (Hg : (rgt (st_h (initial_state e)) 0 &&
                rgt (st_v (initial_state e)) Svc.MIN_VELOCITY)%bool = true).
  { unfold e, entry; cbn [initial_state st_h st_v make_env env_initialVelocity
      ec_velocity].
    unfold rgt, H_ENTRY, Svc.MIN_VELOCITY.
    apply andb_true_intro; split; apply rlt_spec; lra. }
  rewrite Hg, Hs.
  eexists; split; [reflexivity|].
  cbn [finish tr_impact im_airburst Svc.airburst_of].
  unfold Svc.airburst_of; rewrite Hf; cbn [andb]; unfold rgt; apply rlt_spec; exact Hh.
Qed.

(** Claim C3 (amended): in [part_005] every pass that sets [fragmented]
    runs with current and entry speed above 1000 m/s, and a run reporting
    [airburst] has a positive [airburstEnergy] and an entry speed above
    1000 m/s; in the services module, for valid inputs, a run reporting
    [airburst] has a positive [airburstEnergy] (that module has no speed
    floor for fragmentation). *)
Theorem C3_airburst_energy_and_speed_floor
    (vInfinity diameter : R) (material : Material) (angle : R)
    (options : IntegrationOptions) :
  valid_input vInfinity diameter material angle ->
  valid_options options ->
  (forall e s, st_fragmented s = false ->
     st_fragmented (step_state (V005.step e s)) = true ->
     1000 < st_v s /\ 1000 < env_initialVelocity e) /\
  (forall entry body opts,
     on_result (V005.integrateTrajectory entry body opts)
       (fun r => im_airburst (tr_impact r) = true ->
          (exists x, im_airburstEnergy (tr_impact r) = Some x /\ 0 < x) /\
          1000 < ec_velocity entry)) /\
  on_result (Svc.integrateTrajectory
               (Svc.calculateEntryConditions vInfinity (Some angle))
               (calculateBodyProperties diameter material) options)
    (fun r => im_airburst (tr_impact r) = true ->
       exists x, im_airburstEnergy (tr_impact r) = Some x /\ 0 < x).
Proof.
  intros Hin Hopt; split; [|split].
  - exact V005_step_fire_speeds.
  - intros entry body opts.
    apply (V005_on_result _ _ _ (fragment_fast_entry (make_env entry body opts))
                               (fragment_fast_entry (make_env entry body opts))).
    + auto.
    + intros s Hs _; apply step_result_cases; apply V005_step_fast_entry; exact Hs.
    + intros Hf; discriminate.
    + intros s Hs; cbn [finish tr_impact im_airburst im_airburstEnergy].
      unfold V005.airburst_of; intros Hab.
      destruct (st_fragmented s) eqn:Hf; [|discriminate].
      destruct (st_airburstEnergy s) as [x|]; [|rewrite andb_false_r in Hab; discriminate].
      rewrite andb_true_iff in Hab; destruct Hab as [_ Hx].
      unfold rgt in Hx; apply rlt_spec in Hx.
      split; [exists x; split; [reflexivity|exact Hx]|exact (Hs Hf)].
  - apply (Svc_run_with vInfinity diameter material angle options fragment_energy_pos);
      [exact Hin|exact Hopt| | |].
    + intros s (Hm & _) Hk _ Hv; apply Svc_step_energy_pos; [lra|exact Hv|exact Hk].
    + intros Hf; discriminate.
    + intros s _ Hk; cbn [finish tr_impact im_airburst im_airburstEnergy].
      unfold Svc.airburst_of; intros Hab.
      apply andb_true_iff in Hab; exact (Hk (proj1 Hab)).
Qed.

Lemma C3_witness :
  let stony := mkMaterial 3000 2e5 (Some "stony"%string) in
  valid_input 15 50 stony 45 /\ valid_options no_options /\
  on_result (Svc.integrateTrajectory (Svc.calculateEntryConditions 15 (Some 45))
               (calculateBodyProperties 50 stony) no_options)
    (fun r => im_airburst (tr_impact r) = true ->
       exists x, im_airburstEnergy (tr_impact r) = Some x /\ 0 < x).
Proof.
  intros stony.
  assert (Hin : valid_input 15 50 stony 45) by (unfold valid_input; cbn; lra).
  assert (Hopt : valid_options no_options) by (repeat split).
  split; [exact Hin|split; [exact Hopt|]].
  exact (proj2 (proj2 (C3_airburst_energy_and_speed_floor 15 50 stony 45 no_options Hin Hopt))).
Defined.

(* ------------------------------------------------------------------ *)
(** ** Ablation and ground contact in one pass *)

(** A vertical pass of the [part_005] loop whose ablation removes the whole
    mass and whose drag leaves the body fast enough to cross the remaining
    altitude ends the run with [m = 0] below ground. *)
Lemma V005_step_ablate_to_ground e s :
  env_ok e -> 1 <= env_fragMult e -> sin (env_gamma e) = 1 ->
  0 < st_m s -> 0 <= st_A s -> 3000 < st_v s -> 3000 < env_initialVelocity e ->
  st_m s <= env_lambda e * st_A s / (2 * env_Q e) * atmosphericDensity (st_h s)
            * st_v s * st_v s * st_v s * env_dt e ->
  st_h s <= (st_v s - (env_Cd e * (st_A s * env_fragMult e) / (2 * st_m s)
             * atmosphericDensity (st_h s) * st_v s * st_v s + GRAVITY) * env_dt e)
            * env_dt e ->
  exists s', V005.step e s = Break s' /\ st_m s' = 0 /\ st_h s' <= 0.
Proof.
  intros (Hdt & Hlam & HQ & HCd & Hfm & HM & Harea & _ & Hiv) Hfm1 Hsin
         Hm HA Hv Hiv3 Habl Hdrag.
  unfold V005.step; cbv zeta; rewrite Hsin.
  set (rho := atmosphericDensity (st_h s)) in *.
  assert (Hrho : 0 < rho) by apply atmosphericDensity_pos.
  set (A' := if (_ : bool) then st_A s * env_fragMult e else st_A s).
  assert (HA' : st_A s <= A' <= st_A s * env_fragMult e).
  { unfold A'; case_if; split; nra. }
  assert (Hvv : rgt (st_v s) 3000 = true) by (unfold rgt; apply rlt_spec; lra).
  rewrite Hvv.
  set (m1 := Rmax 0 (st_m s + _)).
  assert (Hm1 : m1 = 0).
  { unfold m1; apply Rmax_left.
    set (K := env_lambda e / (2 * env_Q e) * rho * st_v s * st_v s * st_v s * env_dt e).
    assert (HK : 0 <= K).
    { unfold K; repeat apply Rmult_le_pos; try lra;
      left; apply Rinv_0_lt_compat; lra. }
    replace (env_lambda e * st_A s / (2 * env_Q e) * rho * st_v s * st_v s * st_v s
             * env_dt e) with (st_A s * K) in Habl by (unfold K, Rdiv; ring).
    replace (st_m s + - (env_lambda e * A' / (2 * env_Q e)) * rho * st_v s * st_v s
             * st_v s * env_dt e) with (st_m s - A' * K) by (unfold K, Rdiv; ring).
    nra. }
  assert (Hbrk : (rle m1 0 && rgt (env_initialVelocity e) 3000)%bool = true).
  { rewrite Hm1; apply andb_true_intro; split;
      [apply rle_spec; lra|unfold rgt; apply rlt_spec; lra]. }
  assert (Hpos : rgt m1 0 = false) by (rewrite Hm1; unfold rgt; apply rlt_false; lra).
  rewrite Hbrk, Hpos, andb_false_r; cbv iota.
  eexists; split; [reflexivity|]; cbn [st_m st_h]; split; [reflexivity|].
  set (D := env_Cd e * A' / (2 * st_m s) * rho * st_v s * st_v s).
  set (Dmax := env_Cd e * (st_A s * env_fragMult e) / (2 * st_m s) * rho * st_v s
               * st_v s) in Hdrag.
  assert (HD : D <= Dmax).
  { set (K := env_Cd e / (2 * st_m s) * rho * st_v s * st_v s).
    assert (HK : 0 <= K).
    { unfold K; repeat apply Rmult_le_pos; try lra;
      left; apply Rinv_0_lt_compat; lra. }
    replace D with (A' * K) by (unfold D, K, Rdiv; ring).
    replace Dmax with (st_A s * env_fragMult e * K) by (unfold Dmax, K, Rdiv; ring).
    nra. }
  replace (- (env_Cd e * A' / (2 * st_m s)) * rho * st_v s * st_v s) with (- D)
    by (unfold D, Rdiv; ring).
  clearbody D Dmax.
  assert (Hmax := Rmax_r 0 (st_v s + (- D + - GRAVITY * 1) * env_dt e)).
  assert (st_v s + (- D + - GRAVITY * 1) * env_dt e >= st_v s - (Dmax + GRAVITY) * env_dt e)
    by nra.
  assert (Rmax 0 (st_v s + (- D + - GRAVITY * 1) * env_dt e) * env_dt e >=
          (st_v s - (Dmax + GRAVITY) * env_dt e) * env_dt e) by nra.
  lra.
Qed.

Lemma V005_entry_velocity_3135_99 :
  ec_velocity (V005.calculateEntryConditions 3135.99 (Some 90)) = 3136010.
Proof.
  cbn [V005.calculateEntryConditions ec_velocity].
  destruct (rlt 3135.99 3) eqn:E; [apply rlt_spec in E; lra|].
  unfold V_ESCAPE_EARTH.
  replace (3135.99 * 3135.99 + 11.2 * 11.2) with (3136.01 * 3136.01) by lra.
  rewrite sqrt_square by lra; lra.
Qed.

Lemma sin_toRadians_90 : sin (toRadians 90) = 1.
Proof.
  unfold toRadians; replace (90 * PI / 180) with (PI / 2) by field.
  apply sin_PI2.
Qed.

(** Claim C5 (counterexample): in [part_005], a 1 m stony body entering
    vertically with [vInfinity = 3135.99] km/s (entry speed 3136.01 km/s)
    loses its whole mass and crosses the remaining 100 km in the first
    0.05 s pass, so the summary reports both [groundImpact] and [mass = 0]. *)
Lemma C5_ground_impact_with_zero_mass :
  exists r,
    V005.integrateTrajectory (V005.calculateEntryConditions 3135.99 (Some 90))
      (calculateBodyProperties 1 (mkMaterial 3000 2e5 (Some "stony"%string)))
      no_options = Some r /\
    im_groundImpact (tr_impact r) = true /\ im_mass (tr_impact r) = 0.
Proof.
  set (entry := V005.calculateEntryConditions 3135.99 (Some 90)).
  set (stony := mkMaterial 3000 2e5 (Some "stony"%string)).
  set (body := calculateBodyProperties 1 stony).
  set (e := make_env entry body no_options).
  assert (Hin : valid_input 3135.99 1 stony 90) by (unfold valid_input; cbn; lra).
  assert (Hopt : valid_options no_options) by (repeat split).
  assert (Hv0 : ec_velocity entry = 3136010) by apply V005_entry_velocity_3135_99.
  assert (Henv : env_ok e).
  { apply (env_ok_make entry 3135.99 1 stony 90 no_options Hin Hopt);
      [rewrite Hv0; lra|reflexivity]. }
  assert (Hdt : env_dt e = 0.05) by reflexivity.
  assert (HPI3 := PI2_3_2); assert (HPI4 := PI_4).
  destruct rho_entry_bounds as [Hlo Hhi].
  assert (H314 : (3 ^ 14 = 4782969)%R) by ring.
  assert (H213 : (2 ^ 13 = 8192)%R) by ring.
  rewrite H314 in Hlo; rewrite H213 in Hhi.
  set (rho := atmosphericDensity H_ENTRY) in *.
  destruct (V005_step_ablate_to_ground e (initial_state e)) as (s' & Hs & Hm & Hh);
    try exact Henv.
  - cbn; lra.
  - apply sin_toRadians_90.
  - apply body_mass_pos; cbn; lra.
  - apply body_area_nonneg.
  - cbn [initial_state st_v env_initialVelocity e make_env]; rewrite Hv0; lra.
  - cbn [e make_env env_initialVelocity]; rewrite Hv0; lra.
  - cbn [initial_state st_m st_A st_h st_v e make_env env_body env_initialVelocity
         env_lambda env_Q env_dt js_or body calculateBodyProperties bp_mass bp_area
         mat_density stony no_options opt_lambda opt_Q opt_dt opt_Cd
         opt_fragmentationMultiplier].
    fold rho; rewrite Hv0; unfold LAMBDA, Q_ABLATION.
    assert (PI * rho >= PI * (1.225 / 4782969)) by (apply Rle_ge, Rmult_le_compat_l; lra).
    lra.
  - cbn [initial_state st_m st_A st_h st_v e make_env env_body env_initialVelocity
         env_Cd env_fragMult env_dt js_or body calculateBodyProperties bp_mass bp_area
         mat_density stony no_options opt_lambda opt_Q opt_dt opt_Cd
         opt_fragmentationMultiplier].
    fold rho; rewrite Hv0; unfold C_D, GRAVITY, H_ENTRY.
    replace 1.0 with 1 by lra.
    replace (1 * (PI * (1 / 2) * (1 / 2) * 3) /
             (2 * (3000 * (4 / 3 * PI * (1 / 2) * (1 / 2) * (1 / 2)))))
      with (3 / 4000) by (field; lra).
    lra.
  - assert (Hfuel : flight_fuel V005.MAX_FLIGHT_TIME (env_dt e) <> 0%nat).
    { intros H0.
      pose proof (flight_fuel_enough V005.MAX_FLIGHT_TIME (env_dt e)) as Hf0.
      rewrite H0 in Hf0; cbn [INR] in Hf0; unfold V005.MAX_FLIGHT_TIME in Hf0.
      rewrite Hdt in Hf0; lra. }
    unfold V005.integrateTrajectory; fold e.
    destruct (flight_fuel V005.MAX_FLIGHT_TIME (env_dt e)) as [|n]; [contradiction|].
    cbn [V005.loop].
    assert (Hg : rgt (st_h (initial_state e)) 0 = true).
    { cbn [initial_state st_h]; unfold rgt, H_ENTRY; apply rlt_spec; lra. }
    rewrite Hg, Hs.
    eexists; split; [reflexivity|].
    cbn [finish tr_impact im_groundImpact im_mass].
    split; [apply rle_spec; exact Hh|exact Hm].
Qed.

(** Claim C5 (amended): ground impact and complete ablation can end the
    same run; what [part_005] guarantees, for valid inputs, is that the
    final mass lies in [0, initial mass] and is 0 only when the entry speed
    exceeds 3000 m/s (below that no pass ablates, and a non-positive mass
    would be reset to the initial one). *)
Theorem C5_zero_mass_only_above_3000_m_s
    (vInfinity diameter : R) (material : Material) (angle : R)
    (options : IntegrationOptions) :
  valid_input vInfinity diameter material angle ->
  valid_options options ->
  on_result (V005.integrateTrajectory
               (V005.calculateEntryConditions vInfinity (Some angle))
               (calculateBodyProperties diameter material) options)
    (fun r => 0 <= im_mass (tr_impact r) <= bp_mass (calculateBodyProperties diameter material) /\
       (im_mass (tr_impact r) = 0 ->
        3000 < ec_velocity (V005.calculateEntryConditions vInfinity (Some angle)))).
Proof.
  intros Hin Hopt.
  apply V005_run_post; [exact Hin|exact Hopt|].
  intros s (Hm & H0 & _); cbn [finish tr_impact im_mass].
  split; [exact Hm|exact H0].
Qed.

Lemma C5_witness :
  let stony := mkMaterial 3000 2e5 (Some "stony"%string) in
  valid_input 20 10 stony 45 /\ valid_options no_options /\
  on_result (V005.integrateTrajectory (V005.calculateEntryConditions 20 (Some 45))
               (calculateBodyProperties 10 stony) no_options)
    (fun r => 0 <= im_mass (tr_impact r) <= bp_mass (calculateBodyProperties 10 stony) /\
       (im_mass (tr_impact r) = 0 ->
        3000 < ec_velocity (V005.calculateEntryConditions 20 (Some 45)))).
Proof.
  intros stony.
  assert (Hin : valid_input 20 10 stony 45) by (unfold valid_input; cbn; lra).
  assert (Hopt : valid_options no_options) by (repeat split).
  split; [exact Hin|split; [exact Hopt|]].
  exact (C5_zero_mass_only_above_3000_m_s 20 10 stony 45 no_options Hin Hopt).
Defined.

(* ------------------------------------------------------------------ *)
(** ** Blast radii *)

Lemma js_pow_pos x y : 0 < js_pow x y.
Proof. unfold js_pow, Rpower; apply exp_pos. Qed.

(** Past its guards, [rangeForOverpressure] is [r_term ^ (1/2.5) * E^(1/3) / 1000]. *)
Lemma range_eq E alt p :
  0 < p -> 0 < r_term_of E alt p ->
  rangeForOverpressure E alt p =
  js_pow (r_term_of E alt p) (1/2.5) * js_pow E (1/3) / 1000.
Proof.
  intros Hp Hr; unfold rangeForOverpressure; cbv zeta.
  rewrite (proj2 (rle_false _ _) Hp).
  assert (Hd : 0 < p / js_pow E (2/3) * js_pow (1 + alt / 6789) 2).
  { apply Rmult_lt_0_compat; [|apply js_pow_pos].
    unfold Rdiv; apply Rmult_lt_0_compat; [lra|apply Rinv_0_lt_compat, js_pow_pos]. }
  rewrite (proj2 (rle_false _ _) Hd).
  unfold r_term_of in *.
  rewrite (proj2 (rle_false _ _) Hr).
  reflexivity.
Qed.

Lemma r_term_antitone E alt p1 p2 :
  0 < p1 <= p2 -> r_term_of E alt p2 <= r_term_of E alt p1.
Proof.
  intros Hp; unfold r_term_of.
  set (K := / js_pow E (2/3) * js_pow (1 + alt / 6789) 2).
  assert (HK : 0 < K).
  { unfold K; apply Rmult_lt_0_compat; [apply Rinv_0_lt_compat|]; apply js_pow_pos. }
  replace (p1 / js_pow E (2/3) * js_pow (1 + alt / 6789) 2) with (p1 * K)
    by (unfold K, Rdiv; ring).
  replace (p2 / js_pow E (2/3) * js_pow (1 + alt / 6789) 2) with (p2 * K)
    by (unfold K, Rdiv; ring).
  assert (/ (p2 * K) <= / (p1 * K)).
  { apply Rinv_le_contravar; [apply Rmult_lt_0_compat; lra|].
    apply Rmult_le_compat_r; lra. }
  unfold Rdiv; lra.
Qed.

(** With the range term positive at the higher threshold, a lower threshold
    gives a range at least as large. *)
Lemma range_antitone E alt p1 p2 :
  0 < p1 <= p2 -> 0 < r_term_of E alt p2 ->
  rangeForOverpressure E alt p2 <= rangeForOverpressure E alt p1.
Proof.
  intros Hp Hr2.
  assert (Hr := r_term_antitone E alt p1 p2 Hp).
  rewrite (range_eq E alt p2), (range_eq E alt p1) by lra.
  unfold Rdiv; apply Rmult_le_compat_r; [lra|].
  apply Rmult_le_compat_r; [left; apply js_pow_pos|].
  unfold js_pow; apply Rle_Rpower_l; lra.
Qed.

(** The four radii after attenuation and the window cap. *)
Lemma blast_radii_ordered p_window energy altitude :
  0 < p_window <= 20000 ->
  0 < r_term_of (energy * 1000) altitude 100000 ->
  be_radiusSevereDestruction (blast_radii p_window energy altitude) <=
    be_radiusStructuralDamage (blast_radii p_window energy altitude) /\
  (forall x, be_radiusExtreme (blast_radii p_window energy altitude) = Some x ->
     x <= be_radiusSevereDestruction (blast_radii p_window energy altitude)) /\
  (be_radiusStructuralDamage (blast_radii p_window energy altitude) <= 300 ->
   be_radiusStructuralDamage (blast_radii p_window energy altitude) <=
     be_radiusWindowBreak (blast_radii p_window energy altitude)).
Proof.
  intros Hpw Hr.
  assert (H1 := range_antitone (energy * 1000) altitude 35000 100000 ltac:(lra) Hr).
  assert (Hr35 : 0 < r_term_of (energy * 1000) altitude 35000)
    by (pose proof (r_term_antitone (energy * 1000) altitude 35000 100000); lra).
  assert (H2 := range_antitone (energy * 1000) altitude 20000 35000 ltac:(lra) Hr35).
  assert (Hr20 : 0 < r_term_of (energy * 1000) altitude 20000)
    by (pose proof (r_term_antitone (energy * 1000) altitude 20000 35000); lra).
  assert (H3 := range_antitone (energy * 1000) altitude p_window 20000 Hpw Hr20).
  unfold blast_radii; cbv zeta.
  set (att := if rgt (altitude / 1000) H_REF then _ else 1.0).
  assert (Hatt : 0 < att) by (unfold att; case_if; [apply exp_pos|lra]).
  clearbody att.
  cbn [be_radiusSevereDestruction be_radiusStructuralDamage be_radiusExtreme
       be_radiusWindowBreak].
  split; [|split].
  - apply Rmult_le_compat_r; lra.
  - intros x Hx; injection Hx as <-; apply Rmult_le_compat_r; lra.
  - intros Hs; case_if; unfold CAP_WINDOW; [lra|].
    apply Rmult_le_compat_r; lra.
Qed.

Lemma blast_window_le_cap p_window energy altitude :
  be_radiusWindowBreak (blast_radii p_window energy altitude) <= 300.
Proof.
  unfold blast_radii; cbv zeta; cbn [be_radiusWindowBreak].
  set (att := if rgt (altitude / 1000) H_REF then _ else 1.0); clearbody att.
  case_if; bool_facts; unfold CAP_WINDOW in *; lra.
Qed.

Lemma js_pow_1e6 :
  js_pow (1000 * 1000) (1/3) = 100 /\ js_pow (1000 * 1000) (2/3) = 10000.
Proof.
  assert (H : 1000 * 1000 = Rpower 100 (INR 3))
    by (rewrite Rpower_pow by lra; cbn [pow]; lra).
  unfold js_pow; rewrite H, !Rpower_mult; split.
  - replace (INR 3 * (1/3)) with 1 by (cbn [INR]; lra); apply Rpower_1; lra.
  - replace (INR 3 * (2/3)) with (INR 2) by (cbn [INR]; lra).
    rewrite Rpower_pow by lra; cbn [pow]; lra.
Qed.

Lemma js_pow_alt_6789 : js_pow (1 + 6789 / 6789) 2 = 4.
Proof.
  replace (1 + 6789 / 6789) with 2 by lra.
  assert (H : Rpower 2 (INR 2) = 2 ^ 2) by (apply Rpower_pow; lra).
  cbn [INR pow] in H; replace (1 + 1) with 2 in H by lra.
  unfold js_pow; rewrite H; lra.
Qed.

Lemma r_term_1e6_6789 p :
  r_term_of (1000 * 1000) 6789 p = 3.14e11 / (p / 10000 * 4) - 2.5e5.
Proof.
  unfold r_term_of; rewrite (proj2 js_pow_1e6), js_pow_alt_6789; reflexivity.
Qed.

(** At 1000 Mt and 6789 m the 20 kPa range exceeds 300 km, whatever the
    window threshold. *)
Lemma structural_1000_6789 p_window :
  300 < be_radiusStructuralDamage (blast_radii p_window 1000 6789).
Proof.
  unfold blast_radii; cbv zeta; cbn [be_radiusStructuralDamage].
  assert (Ha : rgt (6789 / 1000) H_REF = false)
    by (unfold rgt, H_REF; apply rlt_false; lra).
  rewrite Ha.
  assert (Hr : r_term_of (1000 * 1000) 6789 20000 = 39249750000)
    by (rewrite r_term_1e6_6789; replace (20000 / 10000 * 4) with 8 by lra; lra).
  rewrite range_eq by (try rewrite Hr; lra).
  rewrite Hr, (proj1 js_pow_1e6).
  assert (H3 : Rpower 3000 (INR 3) = 3000 ^ 3) by (apply Rpower_pow; lra).
  replace (INR 3) with 3 in H3 by (cbn [INR]; lra); cbn [pow] in H3.
  assert (Hlt : Rpower 3000 2.5 < Rpower 3000 3) by (apply Rpower_lt; lra).
  assert (H0 : 0 < Rpower 3000 2.5) by apply js_pow_pos.
  assert (Hb : Rpower (Rpower 3000 2.5) (1/2.5) < Rpower 39249750000 (1/2.5)).
  { apply Rlt_Rpower_l; [lra|split; lra]. }
  rewrite Rpower_mult in Hb.
  replace (2.5 * (1/2.5)) with 1 in Hb by lra.
  rewrite Rpower_1 in Hb by lra.
  unfold js_pow; lra.
Qed.

Lemma estimateBlastEffects_positive_V005 energy altitude :
  0 < energy -> 0 < altitude ->
  V005.estimateBlastEffects energy altitude = blast_radii 2000 energy altitude.
Proof.
  intros He Ha; unfold V005.estimateBlastEffects.
  rewrite (proj2 (rle_false _ _) He), (proj2 (rle_false _ _) Ha); reflexivity.
Qed.

Lemma estimateBlastEffects_positive_Svc energy altitude :
  0 < energy -> 0 < altitude ->
  Svc.estimateBlastEffects energy altitude = blast_radii 1000 energy altitude.
Proof.
  intros He Ha; unfold Svc.estimateBlastEffects.
  rewrite (proj2 (rle_false _ _) He), (proj2 (rle_false _ _) Ha); reflexivity.
Qed.

(** Claim C10 (counterexample): at 1000 Mt and 6789 m the window-breakage
    radius is capped at 300 km while the structural-damage radius exceeds
    300 km, so [radiusWindowBreak < radiusStructuralDamage] (both
    versions). *)
Lemma C10_window_below_structural :
  be_radiusWindowBreak (V005.estimateBlastEffects 1000 6789) <
    be_radiusStructuralDamage (V005.estimateBlastEffects 1000 6789) /\
  be_radiusWindowBreak (Svc.estimateBlastEffects 1000 6789) <
    be_radiusStructuralDamage (Svc.estimateBlastEffects 1000 6789).
Proof.
  rewrite estimateBlastEffects_positive_V005, estimateBlastEffects_positive_Svc
    by lra.
  split.
  - pose proof (blast_window_le_cap 2000 1000 6789).
    pose proof (structural_1000_6789 2000); lra.
  - pose proof (blast_window_le_cap 1000 1000 6789).
    pose proof (structural_1000_6789 1000); lra.
Qed.

(** Claim C10 (amended): for [energy > 0], [altitude > 0] and a positive
    range term at the 100 kPa threshold (so that no radius takes the 10 m
    floor), [radiusStructuralDamage >= radiusSevereDestruction >=
    radiusExtreme], and [radiusWindowBreak >= radiusStructuralDamage]
    whenever the structural radius is at most the 300 km window cap (both
    versions). *)
Theorem C10_radii_ordered_below_cap (energy altitude : R) :
  0 < energy -> 0 < altitude ->
  0 < r_term_of (energy * 1000) altitude 100000 ->
  (be_radiusSevereDestruction (V005.estimateBlastEffects energy altitude) <=
     be_radiusStructuralDamage (V005.estimateBlastEffects energy altitude) /\
   (forall x, be_radiusExtreme (V005.estimateBlastEffects energy altitude) = Some x ->
      x <= be_radiusSevereDestruction (V005.estimateBlastEffects energy altitude)) /\
   (be_radiusStructuralDamage (V005.estimateBlastEffects energy altitude) <= 300 ->
    be_radiusStructuralDamage (V005.estimateBlastEffects energy altitude) <=
      be_radiusWindowBreak (V005.estimateBlastEffects energy altitude))) /\
  (be_radiusSevereDestruction (Svc.estimateBlastEffects energy altitude) <=
     be_radiusStructuralDamage (Svc.estimateBlastEffects energy altitude) /\
   (forall x, be_radiusExtreme (Svc.estimateBlastEffects energy altitude) = Some x ->
      x <= be_radiusSevereDestruction (Svc.estimateBlastEffects energy altitude)) /\
   (be_radiusStructuralDamage (Svc.estimateBlastEffects energy altitude) <= 300 ->
    be_radiusStructuralDamage (Svc.estimateBlastEffects energy altitude) <=
      be_radiusWindowBreak (Svc.estimateBlastEffects energy altitude))).
Proof.
  intros He Ha Hr.
  rewrite estimateBlastEffects_positive_V005, estimateBlastEffects_positive_Svc
    by assumption.
  split; apply blast_radii_ordered; try exact Hr; lra.
Qed.

Lemma C10_witness :
  0 < 1000 /\ 0 < 6789 /\ 0 < r_term_of (1000 * 1000) 6789 100000 /\
  be_radiusSevereDestruction (Svc.estimateBlastEffects 1000 6789) <=
    be_radiusStructuralDamage (Svc.estimateBlastEffects 1000 6789).
Proof.
  assert (He : 0 < 1000) by lra.
  assert (Ha : 0 < 6789) by lra.
  assert (Hr : 0 < r_term_of (1000 * 1000) 6789 100000).
  { rewrite r_term_1e6_6789; replace (100000 / 10000 * 4) with 40 by lra; lra. }
  split; [exact He|split; [exact Ha|split; [exact Hr|]]].
  exact (proj1 (proj2 (C10_radii_ordered_below_cap 1000 6789 He Ha Hr))).
Defined.

(* ------------------------------------------------------------------ *)
(** ** Utilities *)

(** [toDegrees] and [toRadians] are inverse to each other (both versions
    share them). *)
Theorem toDegrees_toRadians_inverse (x : R) :
  toDegrees (toRadians x) = x /\ toRadians (toDegrees x) = x.
Proof.
  assert (Hpi : PI <> 0) by apply PI_neq0.
  unfold toDegrees, toRadians; split; field; exact Hpi.
Qed.

(** The density of the atmosphere model is positive and never exceeds the
    sea-level value 1.225 kg/m^3, at any altitude. *)
Theorem atmosphericDensity_bounds (h : R) : 0 < atmosphericDensity h <= 1.225.
Proof.
  split; [apply atmosphericDensity_pos|].
  unfold atmosphericDensity, RHO_0, SCALE_HEIGHT.
  destruct (rlt h 0) eqn:E; bool_facts; [lra|].
  assert (Hx : - h / 7200 <= 0) by (unfold Rdiv; nra).
  assert (exp (- h / 7200) <= 1).
  { destruct (Rle_lt_or_eq_dec _ _ Hx) as [Hl|He].
    - left; rewrite <- exp_0; apply exp_increasing; exact Hl.
    - rewrite He, exp_0; lra. }
  lra.
Qed.

(** The body is a sphere: [mass = density * (2/3) * diameter * area]; for a
    positive diameter and density, area and mass are positive. *)
Theorem calculateBodyProperties_sphere (diameter : R) (material : Material) :
  bp_mass (calculateBodyProperties diameter material) =
    bp_density (calculateBodyProperties diameter material) * (2/3) *
    bp_diameter (calculateBodyProperties diameter material) *
    bp_area (calculateBodyProperties diameter material) /\
  (0 < diameter -> 0 < mat_density material ->
     0 < bp_area (calculateBodyProperties diameter material) /\
     0 < bp_mass (calculateBodyProperties diameter material)).
Proof.
  split.
  - cbn [calculateBodyProperties bp_mass bp_density bp_diameter bp_area]; field.
  - intros Hd Hrho; split; [|apply body_mass_pos; assumption].
    cbn [calculateBodyProperties bp_area].
    assert (0 < PI) by apply PI_RGT_0.
    apply Rmult_lt_0_compat; [apply Rmult_lt_0_compat|]; lra.
Qed.

Lemma calculateBodyProperties_sphere_witness :
  0 < 50 /\ 0 < mat_density (mkMaterial 3000 2e5 None) /\
  0 < bp_mass (calculateBodyProperties 50 (mkMaterial 3000 2e5 None)).
Proof.
  assert (Hd : 0 < 50) by lra.
  assert (Hr : 0 < mat_density (mkMaterial 3000 2e5 None)) by (cbn; lra).
  split; [exact Hd|split; [exact Hr|]].
  exact (proj2 (proj2 (calculateBodyProperties_sphere 50 _) Hd Hr)).
Defined.

(* ------------------------------------------------------------------ *)
(** ** Blast radii: bounds, attenuation, versions *)

Lemma range_denominator_pos E alt p :
  0 < p -> 0 < p / js_pow E (2/3) * js_pow (1 + alt / 6789) 2.
Proof.
  intros Hp; apply Rmult_lt_0_compat; [|apply js_pow_pos].
  unfold Rdiv; apply Rmult_lt_0_compat; [lra|apply Rinv_0_lt_compat, js_pow_pos].
Qed.

Lemma range_nonneg E alt p : 0 <= rangeForOverpressure E alt p.
Proof.
  unfold rangeForOverpressure; cbv zeta.
  repeat case_if; try lra.
  left; unfold Rdiv; apply Rmult_lt_0_compat; [|lra].
  apply Rmult_lt_0_compat; apply js_pow_pos.
Qed.

Lemma range_pos E alt p : 0 < p -> 0 < rangeForOverpressure E alt p.
Proof.
  intros Hp; unfold rangeForOverpressure; cbv zeta.
  rewrite (proj2 (rle_false _ _) Hp).
  rewrite (proj2 (rle_false _ _) (range_denominator_pos E alt p Hp)).
  case_if; [lra|].
  unfold Rdiv; apply Rmult_lt_0_compat; [|lra].
  apply Rmult_lt_0_compat; apply js_pow_pos.
Qed.

(** The attenuation factor of [estimateBlastEffects]: 1 up to 25 km, in
    (0, 1) above. *)
Lemma attenuation_bounds altitude :
  let att := if rgt (altitude / 1000) H_REF
             then exp (- js_pow ((altitude / 1000 - H_REF) / H_SCALE) EXP_P)
             else 1.0 in
  0 < att /\ (altitude / 1000 <= H_REF -> att = 1) /\
  (H_REF < altitude / 1000 -> att < 1).
Proof.
  intros att; unfold att; case_if; bool_facts.
  - split; [apply exp_pos|split; [intros; lra|intros _]].
    rewrite <- exp_0; apply exp_increasing.
    assert (0 < js_pow ((altitude / 1000 - H_REF) / H_SCALE) EXP_P) by apply js_pow_pos.
    lra.
  - split; [lra|split; [intros; lra|intros; lra]].
Qed.

Lemma blast_radii_bounded p energy altitude :
  radii_bounded (blast_radii p energy altitude).
Proof.
  assert (Hw := blast_window_le_cap p energy altitude).
  assert (R1 := range_nonneg (energy * 1000) altitude p).
  assert (R2 := range_nonneg (energy * 1000) altitude 20000).
  assert (R3 := range_nonneg (energy * 1000) altitude 35000).
  assert (R4 := range_nonneg (energy * 1000) altitude 100000).
  destruct (attenuation_bounds altitude) as [Hatt _].
  unfold radii_bounded; split; [split; [|exact Hw]|].
  - unfold blast_radii; cbv zeta; cbn [be_radiusWindowBreak].
    set (att := if rgt (altitude / 1000) H_REF then _ else 1.0) in *; clearbody att.
    case_if; unfold CAP_WINDOW; [lra|apply Rmult_le_pos; lra].
  - unfold blast_radii; cbv zeta;
      cbn [be_radiusStructuralDamage be_radiusSevereDestruction be_radiusExtreme].
    set (att := if rgt (altitude / 1000) H_REF then _ else 1.0) in *; clearbody att.
    split; [apply Rmult_le_pos; lra|split; [apply Rmult_le_pos; lra|]].
    intros x Hx; injection Hx as <-; apply Rmult_le_pos; lra.
Qed.

Lemma blast_radii_positive p energy altitude :
  0 < p -> radii_positive (blast_radii p energy altitude).
Proof.
  intros Hp.
  assert (R1 := range_pos (energy * 1000) altitude p Hp).
  assert (R2 := range_pos (energy * 1000) altitude 20000 ltac:(lra)).
  assert (R3 := range_pos (energy * 1000) altitude 35000 ltac:(lra)).
  assert (R4 := range_pos (energy * 1000) altitude 100000 ltac:(lra)).
  destruct (attenuation_bounds altitude) as [Hatt _].
  unfold radii_positive, blast_radii; cbv zeta;
    cbn [be_radiusWindowBreak be_radiusStructuralDamage be_radiusSevereDestruction
         be_radiusExtreme].
  set (att := if rgt (altitude / 1000) H_REF then _ else 1.0) in *; clearbody att.
  split; [case_if; unfold CAP_WINDOW; [lra|apply Rmult_lt_0_compat; lra]|].
  split; [apply Rmult_lt_0_compat; lra|split; [apply Rmult_lt_0_compat; lra|]].
  eexists; split; [reflexivity|apply Rmult_lt_0_compat; lra].
Qed.

Lemma blast_radii_severity p energy altitude :
  be_severity (blast_radii p energy altitude) <> "none"%string.
Proof.
  unfold blast_radii; cbv zeta; cbn [be_severity].
  repeat case_if; discriminate.
Qed.

Lemma blast_none_bounded energy altitude : radii_bounded (blast_none energy altitude).
Proof.
  unfold radii_bounded; cbn; split; [lra|split; [lra|split; [lra|]]].
  intros x Hx; discriminate.
Qed.

Lemma estimateBlastEffects_cases (p : R) (est : R -> R -> BlastEffects) energy altitude
    (P : BlastEffects -> Prop) :
  est energy altitude = (if (rle energy 0 || rle altitude 0)%bool
                         then blast_none energy altitude
                         else blast_radii p energy altitude) ->
  P (blast_none energy altitude) -> P (blast_radii p energy altitude) ->
  P (est energy altitude).
Proof. intros ->; case_if; auto. Qed.

(** Every blast estimate has non-negative radii, the window-breakage radius
    at most 300 km, whatever the energy and altitude (both versions). *)
Theorem estimateBlastEffects_radii_bounded (energy altitude : R) :
  radii_bounded (V005.estimateBlastEffects energy altitude) /\
  radii_bounded (Svc.estimateBlastEffects energy altitude).
Proof.
  split; [apply (estimateBlastEffects_cases 2000)|apply (estimateBlastEffects_cases 1000)];
    try reflexivity; auto using blast_none_bounded, blast_radii_bounded.
Qed.

(** The severity is ["none"] exactly when [energy <= 0] or [altitude <= 0];
    for a positive energy and altitude all four radii are set and positive
    (both versions). *)
Theorem estimateBlastEffects_none_iff (energy altitude : R) :
  (be_severity (V005.estimateBlastEffects energy altitude) = "none"%string <->
     energy <= 0 \/ altitude <= 0) /\
  (be_severity (Svc.estimateBlastEffects energy altitude) = "none"%string <->
     energy <= 0 \/ altitude <= 0) /\
  (0 < energy -> 0 < altitude ->
     radii_positive (V005.estimateBlastEffects energy altitude) /\
     radii_positive (Svc.estimateBlastEffects energy altitude)).
Proof.
  unfold V005.estimateBlastEffects, Svc.estimateBlastEffects.
  destruct (rle energy 0 || rle altitude 0)%bool eqn:Hg.
  - apply orb_true_iff in Hg.
    assert (Hor : energy <= 0 \/ altitude <= 0)
      by (destruct Hg as [H|H]; apply rle_spec in H; auto).
    split; [|split]; [split; auto..|].
    intros He Ha; exfalso; destruct Hor; lra.
  - apply orb_false_iff in Hg; destruct Hg as [He Ha]; bool_facts.
    split; [|split].
    + split; [intros H; exfalso; exact (blast_radii_severity _ _ _ H)|intros [H|H]; lra].
    + split; [intros H; exfalso; exact (blast_radii_severity _ _ _ H)|intros [H|H]; lra].
    + intros _ _; split; apply blast_radii_positive; lra.
Qed.

Lemma estimateBlastEffects_none_iff_witness :
  0 < 10 /\ 0 < 20000 /\ radii_positive (Svc.estimateBlastEffects 10 20000).
Proof.
  assert (He : 0 < 10) by lra. assert (Ha : 0 < 20000) by lra.
  split; [exact He|split; [exact Ha|]].
  exact (proj2 (proj2 (proj2 (estimateBlastEffects_none_iff 10 20000)) He Ha)).
Defined.

Lemma blast_radii_attenuation p energy altitude :
  0 < p ->
  (altitude <= 25000 -> radii_unattenuated p energy altitude (blast_radii p energy altitude)) /\
  (25000 < altitude -> radii_attenuated p energy altitude (blast_radii p energy altitude)).
Proof.
  intros Hp.
  assert (R1 := range_pos (energy * 1000) altitude p Hp).
  assert (R2 := range_pos (energy * 1000) altitude 20000 ltac:(lra)).
  assert (R3 := range_pos (energy * 1000) altitude 35000 ltac:(lra)).
  assert (R4 := range_pos (energy * 1000) altitude 100000 ltac:(lra)).
  destruct (attenuation_bounds altitude) as (Hatt & Heq & Hlt).
  unfold radii_unattenuated, radii_attenuated, blast_radii; cbv zeta;
    cbn [be_radiusWindowBreak be_radiusStructuralDamage be_radiusSevereDestruction
         be_radiusExtreme].
  set (att := if rgt (altitude / 1000) H_REF then _ else 1.0) in *; clearbody att.
  set (r1 := rangeForOverpressure (energy * 1000) altitude p) in *.
  set (r2 := rangeForOverpressure (energy * 1000) altitude 20000) in *.
  set (r3 := rangeForOverpressure (energy * 1000) altitude 35000) in *.
  set (r4 := rangeForOverpressure (energy * 1000) altitude 100000) in *.
  clearbody r1 r2 r3 r4.
  unfold H_REF, CAP_WINDOW in *.
  split; intros Halt.
  - rewrite Heq by lra; rewrite !Rmult_1_r.
    split; [|split; [reflexivity|split; reflexivity]].
    unfold Rmin; case_if; bool_facts; destruct (Rle_dec r1 300); lra.
  - specialize (Hlt ltac:(lra)).
    assert (r1 * att < r1) by nra.
    split; [|split; [|split; [nra|split; [nra|]]]].
    + unfold Rmin; case_if; bool_facts; destruct (Rle_dec r1 300); lra.
    + case_if; bool_facts; lra.
    + intros x Hx; injection Hx as <-; nra.
Qed.

(** Up to a burst altitude of 25 km the radii are the ranges of
    [rangeForOverpressure] (window range capped at 300 km); above 25 km
    the attenuation factor makes each radius strictly smaller than its
    range (both versions, positive energy and altitude). *)
Theorem estimateBlastEffects_attenuation (energy altitude : R) :
  0 < energy -> 0 < altitude ->
  (altitude <= 25000 ->
     radii_unattenuated 2000 energy altitude (V005.estimateBlastEffects energy altitude) /\
     radii_unattenuated 1000 energy altitude (Svc.estimateBlastEffects energy altitude)) /\
  (25000 < altitude ->
     radii_attenuated 2000 energy altitude (V005.estimateBlastEffects energy altitude) /\
     radii_attenuated 1000 energy altitude (Svc.estimateBlastEffects energy altitude)).
Proof.
  intros He Ha.
  rewrite estimateBlastEffects_positive_V005, estimateBlastEffects_positive_Svc
    by assumption.
  destruct (blast_radii_attenuation 2000 energy altitude ltac:(lra)) as [A1 B1].
  destruct (blast_radii_attenuation 1000 energy altitude ltac:(lra)) as [A2 B2].
  split; intros H; split; auto.
Qed.

Lemma estimateBlastEffects_attenuation_witness :
  0 < 10 /\ 0 < 40000 /\
  radii_attenuated 1000 10 40000 (Svc.estimateBlastEffects 10 40000).
Proof.
  assert (He : 0 < 10) by lra. assert (Ha : 0 < 40000) by lra.
  split; [exact He|split; [exact Ha|]].
  exact (proj2 (proj2 (estimateBlastEffects_attenuation 10 40000 He Ha) ltac:(lra))).
Defined.

(** The two versions give the same structural, severe and extreme radii;
    the services version (1 kPa threshold) gives a window-breakage radius
    at least that of [part_005] (2 kPa), when the range term at 2 kPa is
    positive. *)
Theorem estimateBlastEffects_versions_window (energy altitude : R) :
  0 < energy -> 0 < altitude -> 0 < r_term_of (energy * 1000) altitude 2000 ->
  be_radiusStructuralDamage (V005.estimateBlastEffects energy altitude) =
    be_radiusStructuralDamage (Svc.estimateBlastEffects energy altitude) /\
  be_radiusSevereDestruction (V005.estimateBlastEffects energy altitude) =
    be_radiusSevereDestruction (Svc.estimateBlastEffects energy altitude) /\
  be_radiusExtreme (V005.estimateBlastEffects energy altitude) =
    be_radiusExtreme (Svc.estimateBlastEffects energy altitude) /\
  be_radiusWindowBreak (V005.estimateBlastEffects energy altitude) <=
    be_radiusWindowBreak (Svc.estimateBlastEffects energy altitude).
Proof.
  intros He Ha Hr.
  rewrite estimateBlastEffects_positive_V005, estimateBlastEffects_positive_Svc
    by assumption.
  assert (Hle := range_antitone (energy * 1000) altitude 1000 2000 ltac:(lra) Hr).
  destruct (attenuation_bounds altitude) as [Hatt _].
  unfold blast_radii; cbv zeta;
    cbn [be_radiusWindowBreak be_radiusStructuralDamage be_radiusSevereDestruction
         be_radiusExtreme].
  set (att := if rgt (altitude / 1000) H_REF then _ else 1.0) in *; clearbody att.
  split; [reflexivity|split; [reflexivity|split; [reflexivity|]]].
  assert (rangeForOverpressure (energy * 1000) altitude 2000 * att <=
          rangeForOverpressure (energy * 1000) altitude 1000 * att)
    by (apply Rmult_le_compat_r; lra).
  unfold CAP_WINDOW; repeat case_if; bool_facts; lra.
Qed.

Lemma estimateBlastEffects_versions_window_witness :
  0 < 1000 /\ 0 < 6789 /\ 0 < r_term_of (1000 * 1000) 6789 2000 /\
  be_radiusWindowBreak (V005.estimateBlastEffects 1000 6789) <=
    be_radiusWindowBreak (Svc.estimateBlastEffects 1000 6789).
Proof.
  assert (He : 0 < 1000) by lra. assert (Ha : 0 < 6789) by lra.
  assert (Hr : 0 < r_term_of (1000 * 1000) 6789 2000).
  { rewrite r_term_1e6_6789; replace (2000 / 10000 * 4) with 0.8 by lra; lra. }
  split; [exact He|split; [exact Ha|split; [exact Hr|]]].
  exact (proj2 (proj2 (proj2 (estimateBlastEffects_versions_window 1000 6789 He Ha Hr)))).
Defined.

(* ------------------------------------------------------------------ *)
(** ** Recording, clock and exit of the loop *)

Lemma V005_step_shape e s :
  st_t (step_state (V005.step e s)) = st_t s + env_dt e /\
  (st_trajectory (step_state (V005.step e s)) = st_trajectory s \/
   exists x, ts_time x = st_t s + env_dt e /\
     st_trajectory (step_state (V005.step e s)) =
       record_step e (st_stepCount s) (st_trajectory s) x).
Proof.
  unfold V005.step; cbv zeta.
  split_ifs; cbn [step_state st_t st_trajectory]; (split; [reflexivity|]);
    first [left; reflexivity | right; eexists; split; [|reflexivity]; reflexivity].
Qed.

Lemma Svc_step_shape e s :
  st_t (step_state (Svc.step e s)) = st_t s + env_dt e /\
  (st_trajectory (step_state (Svc.step e s)) = st_trajectory s \/
   exists x, ts_time x = st_t s + env_dt e /\
     st_trajectory (step_state (Svc.step e s)) =
       record_step e (st_stepCount s) (st_trajectory s) x).
Proof.
  unfold Svc.step; cbv zeta.
  split_ifs; cbn [step_state st_t st_trajectory]; (split; [reflexivity|]);
    first [left; reflexivity | right; eexists; split; [|reflexivity]; reflexivity].
Qed.

Lemma record_step_off e n l x :
  env_recordTrajectory e = false -> record_step e n l x = l.
Proof. intros H; unfold record_step; rewrite H; reflexivity. Qed.

Lemma make_env_record_off entry body options :
  opt_recordTrajectory options <> Some true ->
  env_recordTrajectory (make_env entry body options) = false.
Proof.
  intros H; cbn [make_env env_recordTrajectory].
  destruct (opt_recordTrajectory options) as [[|]|]; cbn; congruence.
Qed.

Lemma no_recording_setup entry body options :
  opt_recordTrajectory options <> Some true ->
  let e := make_env entry body options in
  st_trajectory (initial_state e) = [] /\
  (forall ab s, st_trajectory s = [] -> tr_trajectory (finish e ab s) = []) /\
  (forall n l x, record_step e n l x = l).
Proof.
  intros Hr e.
  assert (Hoff := make_env_record_off entry body options Hr); fold e in Hoff.
  split; [unfold initial_state; cbn [st_trajectory]; rewrite Hoff; reflexivity|split].
  - intros ab s Hs; unfold finish; cbn [tr_trajectory]; rewrite Hoff; exact Hs.
  - intros n l x; apply record_step_off; exact Hoff.
Qed.

Lemma V005_no_recording entry body options :
  opt_recordTrajectory options <> Some true ->
  on_result (V005.integrateTrajectory entry body options) (fun r => tr_trajectory r = []).
Proof.
  intros Hr; destruct (no_recording_setup entry body options Hr) as (Hinit & Hfin & Hrec).
  apply (V005_on_result _ _ _ (fun s => st_trajectory s = [])
                             (fun s => st_trajectory s = [])); auto.
  intros s Hs _; apply step_result_cases.
  destruct (V005_step_shape (make_env entry body options) s) as [_ [H|(x & _ & H)]];
    rewrite H; [exact Hs|rewrite Hrec; exact Hs].
Qed.

Lemma Svc_no_recording entry body options :
  opt_recordTrajectory options <> Some true ->
  on_result (Svc.integrateTrajectory entry body options) (fun r => tr_trajectory r = []).
Proof.
  intros Hr; destruct (no_recording_setup entry body options Hr) as (Hinit & Hfin & Hrec).
  apply (Svc_on_result _ _ _ (fun s => st_trajectory s = [])
                            (fun s => st_trajectory s = [])); auto.
  intros s Hs _ _; apply step_result_cases.
  destruct (Svc_step_shape (make_env entry body options) s) as [_ [H|(x & _ & H)]];
    rewrite H; [exact Hs|rewrite Hrec; exact Hs].
Qed.

(** With [recordTrajectory] unset or false (the map page passes [false]),
    the returned trajectory is empty (both versions). *)
Theorem integrateTrajectory_no_recording
    (entry : EntryConditions) (body : BodyProperties) (options : IntegrationOptions) :
  opt_recordTrajectory options <> Some true ->
  on_result (V005.integrateTrajectory entry body options) (fun r => tr_trajectory r = []) /\
  on_result (Svc.integrateTrajectory entry body options) (fun r => tr_trajectory r = []).
Proof.
  intros Hr; split; [apply V005_no_recording|apply Svc_no_recording]; exact Hr.
Qed.

Lemma integrateTrajectory_no_recording_witness :
  opt_recordTrajectory no_options <> Some true /\
  on_result (Svc.integrateTrajectory (Svc.calculateEntryConditions 15 None)
               (calculateBodyProperties 50 (mkMaterial 3000 2e5 None)) no_options)
    (fun r => tr_trajectory r = []).
Proof.
  assert (H : opt_recordTrajectory no_options <> Some true) by discriminate.
  split; [exact H|].
  exact (proj2 (integrateTrajectory_no_recording _ _ _ H)).
Defined.

Lemma times_snoc l t x :
  times_nondecreasing l -> Forall (fun y => ts_time y <= t) l -> t <= ts_time x ->
  times_nondecreasing (l ++ [x]).
Proof.
  induction l as [|y l IH]; intros Hn Hf Hx; cbn [app times_nondecreasing] in *.
  - split; [constructor|exact Logic.I].
  - inversion Hf as [|? ? Hy Hf']; subst; destruct Hn as [Hyl Hn].
    split; [|apply IH; assumption].
    apply Forall_app; split; [exact Hyl|constructor; [lra|constructor]].
Qed.

Lemma time_ok_weaken l t t' : time_ok l t -> t <= t' -> time_ok l t'.
Proof.
  intros (Hn & Hf & Ht) Hle; split; [exact Hn|split; [|lra]].
  eapply Forall_impl; [|exact Hf]; intros y Hy; cbv beta in *; lra.
Qed.

Lemma time_ok_snoc l t x : time_ok l t -> t <= ts_time x -> time_ok (l ++ [x]) (ts_time x).
Proof.
  intros (Hn & Hf & Ht) Hx; split; [|split; [|lra]].
  - apply (times_snoc l t x Hn); [|exact Hx].
    eapply Forall_impl; [|exact Hf]; intros y Hy; cbv beta in *; lra.
  - apply Forall_app; split; [|constructor; [lra|constructor]].
    eapply Forall_impl; [|exact Hf]; intros y Hy; cbv beta in *; lra.
Qed.

Lemma record_step_time e n l t x :
  time_ok l t -> t <= ts_time x -> time_ok (record_step e n l x) (ts_time x).
Proof.
  intros Hl Hx; unfold record_step; case_if;
    [apply (time_ok_snoc l t x); assumption|eapply time_ok_weaken; eassumption].
Qed.

Lemma step_time_ok e s s' :
  0 <= env_dt e -> time_ok (st_trajectory s) (st_t s) ->
  st_t s' = st_t s + env_dt e ->
  (st_trajectory s' = st_trajectory s \/
   exists x, ts_time x = st_t s + env_dt e /\
     st_trajectory s' = record_step e (st_stepCount s) (st_trajectory s) x) ->
  time_ok (st_trajectory s') (st_t s').
Proof.
  intros Hdt Hs Ht [H|(x & Hx & H)]; rewrite H, Ht.
  - eapply time_ok_weaken; [exact Hs|lra].
  - rewrite <- Hx; apply (record_step_time e _ _ (st_t s)); [exact Hs|lra].
Qed.

Lemma time_ok_initial e : time_ok (st_trajectory (initial_state e)) (st_t (initial_state e)).
Proof.
  unfold initial_state; cbn [st_trajectory st_t]; case_if.
  - split; [split; [constructor|exact Logic.I]|split; [|lra]].
    constructor; [cbn; lra|constructor].
  - split; [exact Logic.I|split; [constructor|lra]].
Qed.

Lemma time_ok_finish e ab s :
  time_ok (st_trajectory s) (st_t s) ->
  times_nondecreasing (tr_trajectory (finish e ab s)) /\
  Forall (fun y => 0 <= ts_time y) (tr_trajectory (finish e ab s)).
Proof.
  intros Hs; unfold finish; cbn [tr_trajectory].
  assert (Hw : forall l t, time_ok l t -> times_nondecreasing l /\
                 Forall (fun y => 0 <= ts_time y) l).
  { intros l t (Hn & Hf & _); split; [exact Hn|].
    eapply Forall_impl; [|exact Hf]; intros y Hy; cbv beta in *; lra. }
  case_if; [|exact (Hw _ _ Hs)].
  match goal with |- context [st_trajectory s ++ [?x]] =>
    apply (Hw _ (ts_time x)); apply (time_ok_snoc _ (st_t s)); [exact Hs|cbn; lra] end.
Qed.

(** With a positive time step, the recorded trajectory has non-negative
    times that never decrease from one record to the next (both
    versions); the last two records may share their time, since the final
    state is appended after the loop. *)
Theorem integrateTrajectory_times_ordered
    (entry : EntryConditions) (body : BodyProperties) (options : IntegrationOptions) :
  pos_or_unset (opt_dt options) ->
  on_result (V005.integrateTrajectory entry body options)
    (fun r => times_nondecreasing (tr_trajectory r) /\
              Forall (fun y => 0 <= ts_time y) (tr_trajectory r)) /\
  on_result (Svc.integrateTrajectory entry body options)
    (fun r => times_nondecreasing (tr_trajectory r) /\
              Forall (fun y => 0 <= ts_time y) (tr_trajectory r)).
Proof.
  intros Hdt.
  set (e := make_env entry body options).
  assert (Hpos : 0 < env_dt e) by (apply js_or_pos; [exact Hdt|lra]).
  split.
  - apply (V005_on_result _ _ _ (fun s => time_ok (st_trajectory s) (st_t s))
                               (fun s => time_ok (st_trajectory s) (st_t s))); fold e.
    + auto.
    + intros s Hs _; apply step_result_cases.
      destruct (V005_step_shape e s) as [Ht Htr].
      apply (step_time_ok e s); [lra|exact Hs|exact Ht|exact Htr].
    + apply time_ok_initial.
    + intros s Hs; apply time_ok_finish; exact Hs.
  - apply (Svc_on_result _ _ _ (fun s => time_ok (st_trajectory s) (st_t s))
                              (fun s => time_ok (st_trajectory s) (st_t s))); fold e.
    + auto.
    + intros s Hs _ _; apply step_result_cases.
      destruct (Svc_step_shape e s) as [Ht Htr].
      apply (step_time_ok e s); [lra|exact Hs|exact Ht|exact Htr].
    + apply time_ok_initial.
    + intros s Hs; apply time_ok_finish; exact Hs.
Qed.

Lemma integrateTrajectory_times_ordered_witness :
  let opts := mkOptions None None None None None (Some true) (Some 1%nat) in
  pos_or_unset (opt_dt opts) /\
  on_result (V005.integrateTrajectory (V005.calculateEntryConditions 15 None)
               (calculateBodyProperties 50 (mkMaterial 3000 2e5 None)) opts)
    (fun r => times_nondecreasing (tr_trajectory r) /\
              Forall (fun y => 0 <= ts_time y) (tr_trajectory r)).
Proof.
  intros opts.
  assert (H : pos_or_unset (opt_dt opts)) by exact Logic.I.
  split; [exact H|].
  exact (proj1 (integrateTrajectory_times_ordered _ _ _ H)).
Defined.




(* ------------------------------------------------------------------ *)
(** ** Speed, altitude and airburst fields of a run *)

Lemma V005_env_ok vInf d mat ang opts :
  valid_input vInf d mat ang -> valid_options opts ->
  env_ok (make_env (V005.calculateEntryConditions vInf (Some ang))
            (calculateBodyProperties d mat) opts).
Proof.
  intros Hin Hopt; apply (env_ok_make _ vInf d mat ang opts Hin Hopt); [|reflexivity].
  apply V005_entry_velocity_nonneg; apply Hin.
Qed.

Lemma Svc_env_ok vInf d mat ang opts :
  valid_input vInf d mat ang -> valid_options opts ->
  env_ok (make_env (Svc.calculateEntryConditions vInf (Some ang))
            (calculateBodyProperties d mat) opts).
Proof.
  intros Hin Hopt; apply (env_ok_make _ vInf d mat ang opts Hin Hopt); [|reflexivity].
  apply Svc_entry_velocity_nonneg.
Qed.

(** The [part_005] loop with an extra invariant [K] kept by every pass. *)
Lemma V005_run_with vInf d mat ang opts (K : LoopState -> Prop)
    (P : TrajectoryResult -> Prop) :
  let e := make_env (V005.calculateEntryConditions vInf (Some ang))
             (calculateBodyProperties d mat) opts in
  valid_input vInf d mat ang -> valid_options opts ->
  (forall s, V005_inv e s -> K s -> 0 < st_h s -> K (step_state (V005.step e s))) ->
  K (initial_state e) ->
  (forall s, V005_post e s -> K s -> P (finish e V005.airburst_of s)) ->
  on_result (V005.integrateTrajectory (V005.calculateEntryConditions vInf (Some ang))
               (calculateBodyProperties d mat) opts) P.
Proof.
  intros e Hin Hopt HK HK0 HP.
  assert (Henv : env_ok e) by (apply V005_env_ok; assumption).
  apply (V005_on_result _ _ _ (fun s => V005_inv e s /\ K s)
                              (fun s => V005_post e s /\ K s)).
  - intros s ((Hm & _ & _ & Ht) & Hk); split; [split; [lra|split; [intros; lra|exact Ht]]|exact Hk].
  - intros s (Hs & Hk) Hh.
    pose proof (V005_step_inv e s Henv Hs Hh) as H1.
    pose proof (HK s Hs Hk Hh) as H2.
    fold e; destruct (V005.step e s); cbv beta iota; cbn [step_state] in H2; split; assumption.
  - split; [apply V005_inv_initial; exact Henv|exact HK0].
  - intros s (Hs & Hk); apply HP; assumption.
Qed.

Lemma Svc_step_speed e s :
  env_ok e -> 0 < st_m s -> 0 <= st_A s ->
  0 <= st_v s <= env_initialVelocity e ->
  0 <= st_v (step_state (Svc.step e s)) <= env_initialVelocity e.
Proof.
  intros (Hdt & Hlam & HQ & HCd & Hfm & HM & Harea & Hsin & Hiv) Hm HA Hv.
  unfold Svc.step; cbv zeta.
  set (A' := if (_ : bool) then st_A s * env_fragMult e else st_A s).
  assert (HA' : 0 <= A') by (unfold A'; case_if; [apply Rmult_le_pos|]; lra).
  set (rho := atmosphericDensity (st_h s)).
  assert (Hrho : 0 < rho) by apply atmosphericDensity_pos.
  set (v1 := st_v s + _ * env_dt e).
  assert (Hv1 : v1 <= st_v s).
  { unfold v1.
    assert (0 <= env_Cd e * A' / (2 * st_m s) * rho * st_v s * st_v s).
    { repeat apply Rmult_le_pos; try lra; left; apply Rinv_0_lt_compat; lra. }
    assert (0 <= GRAVITY * sin (env_gamma e)) by (unfold GRAVITY; nra).
    nra. }
  clearbody A' rho v1.
  split_ifs; cbn [step_state st_v]; bool_facts; lra.
Qed.

(** Services version: for valid inputs, the final speed lies between 0 and
    the entry speed, and the reported impact energy never exceeds the
    kinetic energy of the body at entry (in Mt TNT). *)
Theorem Svc_final_speed_energy_bounds
    (vInfinity diameter : R) (material : Material) (angle : R)
    (options : IntegrationOptions) :
  valid_input vInfinity diameter material angle ->
  valid_options options ->
  on_result (Svc.integrateTrajectory
               (Svc.calculateEntryConditions vInfinity (Some angle))
               (calculateBodyProperties diameter material) options)
    (fun r =>
       0 <= im_velocity (tr_impact r) <=
         ec_velocity (Svc.calculateEntryConditions vInfinity (Some angle)) /\
       0 <= im_impactEnergy (tr_impact r) <=
         0.5 * bp_mass (calculateBodyProperties diameter material) *
         ec_velocity (Svc.calculateEntryConditions vInfinity (Some angle)) ^ 2 / 4.184e15).
Proof.
  intros Hin Hopt.
  assert (Henv := Svc_env_ok _ _ _ _ _ Hin Hopt).
  assert (HM := body_mass_pos diameter material (proj1 Hin) (proj1 (proj2 Hin))).
  assert (Hiv := Svc_entry_velocity_nonneg vInfinity (Some angle)).
  apply (Svc_run_with vInfinity diameter material angle options
           (fun s => 0 <= st_v s <= ec_velocity (Svc.calculateEntryConditions vInfinity (Some angle))));
    [exact Hin|exact Hopt| | |].
  - intros s (Hm & HA & _) Hk _ _; apply (Svc_step_speed _ s Henv); [lra|exact HA|exact Hk].
  - cbn [initial_state st_v make_env env_initialVelocity]; lra.
  - intros s (Hm & _) Hk; cbn [finish tr_impact im_velocity im_impactEnergy make_env env_body].
    cbn [make_env env_body] in Hm.
    split; [exact Hk|].
    set (iv := ec_velocity (Svc.calculateEntryConditions vInfinity (Some angle))) in *.
    set (M := bp_mass (calculateBodyProperties diameter material)) in *.
    assert (Hvv : st_v s * st_v s <= iv * iv) by nra.
    assert (Hmv : st_m s * (st_v s * st_v s) <= M * (iv * iv))
      by (apply Rmult_le_compat; nra).
    assert (Hk0 : 0 < / 4.184e15) by (apply Rinv_0_lt_compat; lra).
    unfold Rdiv; split.
    + apply Rmult_le_pos; [|lra]. assert (0 <= st_m s * (st_v s * st_v s)) by nra. nra.
    + apply Rmult_le_compat_r; [lra|]. cbn [pow]. nra.
Qed.

Lemma Svc_final_speed_energy_bounds_witness :
  let stony := mkMaterial 3000 2e5 None in
  valid_input 15 50 stony 45 /\ valid_options no_options /\
  on_result (Svc.integrateTrajectory (Svc.calculateEntryConditions 15 (Some 45))
               (calculateBodyProperties 50 stony) no_options)
    (fun r =>
       0 <= im_velocity (tr_impact r) <=
         ec_velocity (Svc.calculateEntryConditions 15 (Some 45)) /\
       0 <= im_impactEnergy (tr_impact r) <=
         0.5 * bp_mass (calculateBodyProperties 50 stony) *
         ec_velocity (Svc.calculateEntryConditions 15 (Some 45)) ^ 2 / 4.184e15).
Proof.
  intros stony.
  assert (Hin : valid_input 15 50 stony 45) by (unfold valid_input; cbn; lra).
  assert (Hopt : valid_options no_options) by (repeat split).
  split; [exact Hin|split; [exact Hopt|]].
  exact (Svc_final_speed_energy_bounds 15 50 stony 45 no_options Hin Hopt).
Defined.

Lemma V005_step_altitude e s :
  env_ok e -> altitude_ok s -> altitude_ok (step_state (V005.step e s)).
Proof.
  intros (Hdt & Hlam & HQ & HCd & Hfm & HM & Harea & Hsin & Hiv) (Hh & Ha).
  unfold V005.step; cbv zeta.
  set (v1 := if (rlt (_:R) V005.MIN_VELOCITY && (_:bool) && (_:bool))%bool
             then (_:R) else (_:R)).
  assert (Hv1 : 0 <= v1).
  { unfold v1; case_if; [apply Rmin_glb; [apply sqrt_pos|lra]|apply Rmax_l]. }
  assert (Hh1 : st_h s - v1 * sin (env_gamma e) * env_dt e <= st_h s).
  { assert (0 <= v1 * sin (env_gamma e) * env_dt e)
      by (apply Rmult_le_pos; [apply Rmult_le_pos|]; lra).
    lra. }
  clearbody v1.
  unfold altitude_ok; split_ifs; cbn [step_state st_h st_airburstAltitude];
    (split; [lra|intros a Hs]);
    first [injection Hs as <-; lra | specialize (Ha a Hs); lra].
Qed.

(** [part_005]: for valid inputs the altitude never rises, so the final
    altitude is at most the 100 km entry altitude and a recorded airburst
    altitude lies between the final altitude and 100 km. *)
Theorem V005_altitude_never_rises
    (vInfinity diameter : R) (material : Material) (angle : R)
    (options : IntegrationOptions) :
  valid_input vInfinity diameter material angle ->
  valid_options options ->
  on_result (V005.integrateTrajectory
               (V005.calculateEntryConditions vInfinity (Some angle))
               (calculateBodyProperties diameter material) options)
    (fun r => im_altitude (tr_impact r) <= 100000 /\
       forall a, im_airburstAltitude (tr_impact r) = Some a ->
         im_altitude (tr_impact r) <= a <= 100000).
Proof.
  intros Hin Hopt.
  assert (Henv := V005_env_ok _ _ _ _ _ Hin Hopt).
  apply (V005_on_result _ _ _ altitude_ok altitude_ok).
  - auto.
  - intros s Hs _; apply step_result_cases; apply V005_step_altitude; assumption.
  - unfold altitude_ok; cbn [initial_state st_h st_airburstAltitude].
    split; [lra|intros a Ha; discriminate].
  - intros s (Hh & Ha); cbn [finish tr_impact im_altitude im_airburstAltitude].
    unfold H_ENTRY in *; split; assumption.
Qed.

Lemma V005_altitude_never_rises_witness :
  let stony := mkMaterial 3000 2e5 None in
  valid_input 15 50 stony 45 /\ valid_options no_options /\
  on_result (V005.integrateTrajectory (V005.calculateEntryConditions 15 (Some 45))
               (calculateBodyProperties 50 stony) no_options)
    (fun r => im_altitude (tr_impact r) <= 100000 /\
       forall a, im_airburstAltitude (tr_impact r) = Some a ->
         im_altitude (tr_impact r) <= a <= 100000).
Proof.
  intros stony.
  assert (Hin : valid_input 15 50 stony 45) by (unfold valid_input; cbn; lra).
  assert (Hopt : valid_options no_options) by (repeat split).
  split; [exact Hin|split; [exact Hopt|]].
  exact (V005_altitude_never_rises 15 50 stony 45 no_options Hin Hopt).
Defined.

Lemma V005_step_fragment_altitude e s :
  fragment_altitude_set s -> fragment_altitude_set (step_state (V005.step e s)).
Proof.
  unfold fragment_altitude_set; intros Hs; unfold V005.step; cbv zeta.
  split_ifs; cbn [step_state st_fragmented st_airburstAltitude]; intros Hf;
    first [discriminate | exact (Hs Hf)].
Qed.

Lemma Svc_step_fragment_altitude e s :
  fragment_altitude_set s -> fragment_altitude_set (step_state (Svc.step e s)).
Proof.
  unfold fragment_altitude_set; intros Hs; unfold Svc.step; cbv zeta.
  split_ifs; cbn [step_state st_fragmented st_airburstAltitude]; intros Hf;
    first [discriminate | exact (Hs Hf)].
Qed.

Lemma Svc_step_fields_together e s :
  airburst_fields_together s -> airburst_fields_together (step_state (Svc.step e s)).
Proof.
  unfold airburst_fields_together; intros Hs; unfold Svc.step; cbv zeta.
  split_ifs; cbn [step_state st_airburstAltitude st_airburstEnergy];
    first [exact Hs | split; intros H; discriminate H].
Qed.

Lemma V005_airburst_facts entry body opts :
  on_result (V005.integrateTrajectory entry body opts)
    (fun r => airburst_facts (tr_impact r)).
Proof.
  apply (V005_on_result _ _ _
           (fun s => fragment_altitude_set s /\ airburst_above_ground s)
           (fun s => fragment_altitude_set s /\ airburst_above_ground s)).
  - auto.
  - intros s (H1 & H2) Hh; apply step_result_cases; split;
      [apply V005_step_fragment_altitude|apply V005_step_airburst_above_ground]; assumption.
  - split; [intros Hf; discriminate|intros a Ha; discriminate].
  - intros s (H1 & H2); unfold airburst_facts;
      cbn [finish tr_impact im_airburst im_airburstEnergy im_airburstAltitude].
    unfold V005.airburst_of; intros Hab.
    destruct (st_fragmented s) eqn:Hf; [|discriminate].
    destruct (st_airburstEnergy s) as [x|]; [|rewrite andb_false_r in Hab; discriminate].
    rewrite andb_true_iff in Hab; destruct Hab as [_ Hx]; bool_facts.
    destruct (st_airburstAltitude s) as [a|] eqn:Ha; [|exfalso; exact (H1 Hf Ha)].
    exists x, a; split; [reflexivity|split; [exact Hx|split; [reflexivity|exact (H2 a Ha)]]].
Qed.

Lemma Svc_airburst_altitude_facts entry body opts :
  on_result (Svc.integrateTrajectory entry body opts)
    (fun r => (im_airburst (tr_impact r) = true ->
               exists a, im_airburstAltitude (tr_impact r) = Some a /\ 0 < a) /\
              (im_airburstAltitude (tr_impact r) = None <->
               im_airburstEnergy (tr_impact r) = None)).
Proof.
  apply (Svc_on_result _ _ _
           (fun s => fragment_altitude_set s /\ airburst_above_ground s /\
                     airburst_fields_together s)
           (fun s => fragment_altitude_set s /\ airburst_above_ground s /\
                     airburst_fields_together s)).
  - auto.
  - intros s (H1 & H2 & H3) Hh _; apply step_result_cases; split; [|split];
      [apply Svc_step_fragment_altitude|apply Svc_step_airburst_above_ground
      |apply Svc_step_fields_together]; assumption.
  - split; [intros Hf; discriminate|split; [intros a Ha; discriminate|]].
    split; reflexivity.
  - intros s (H1 & H2 & H3);
      cbn [finish tr_impact im_airburst im_airburstEnergy im_airburstAltitude].
    split; [|exact H3].
    unfold Svc.airburst_of; intros Hab; apply andb_true_iff in Hab; destruct Hab as [Hf _].
    destruct (st_airburstAltitude s) as [a|] eqn:Ha; [|exfalso; exact (H1 Hf Ha)].
    exists a; split; [reflexivity|exact (H2 a Ha)].
Qed.

(** A run that reports an airburst has a recorded, positive airburst
    altitude (both versions, any inputs); in the services version the
    airburst altitude and energy are set together. *)
Theorem integrateTrajectory_airburst_altitude
    (entry : EntryConditions) (body : BodyProperties) (options : IntegrationOptions) :
  on_result (V005.integrateTrajectory entry body options)
    (fun r => im_airburst (tr_impact r) = true ->
       exists a, im_airburstAltitude (tr_impact r) = Some a /\ 0 < a) /\
  on_result (Svc.integrateTrajectory entry body options)
    (fun r => (im_airburst (tr_impact r) = true ->
               exists a, im_airburstAltitude (tr_impact r) = Some a /\ 0 < a) /\
              (im_airburstAltitude (tr_impact r) = None <->
               im_airburstEnergy (tr_impact r) = None)).
Proof.
  split; [|apply Svc_airburst_altitude_facts].
  pose proof (V005_airburst_facts entry body options) as H.
  destruct (V005.integrateTrajectory entry body options) as [r|]; [|exact Logic.I].
  cbn [on_result] in *; intros Hab.
  destruct (H Hab) as (x & a & _ & _ & Ha & Ha0); exists a; split; assumption.
Qed.

(* ------------------------------------------------------------------ *)
(** ** The complete assessment *)

Lemma on_result_some o r (P : TrajectoryResult -> Prop) :
  on_result o P -> o = Some r -> P r.
Proof. intros H ->; exact H. Qed.

Lemma assess_with_spec ce it eb params sc :
  assess_with ce it eb params = Some sc ->
  it (ce (np_vInfinity params) (Some (default_angle (np_entryAngle params))))
     (calculateBodyProperties (np_diameter params) (np_material params))
     (np_opts params) = Some (sc_trajectory sc) /\
  sc_blast sc =
    (if im_airburst (tr_impact (sc_trajectory sc)) &&
        js_truthy (im_airburstEnergy (tr_impact (sc_trajectory sc)))
     then Some (eb (js_num (im_airburstEnergy (tr_impact (sc_trajectory sc))))
                   (js_num (im_airburstAltitude (tr_impact (sc_trajectory sc)))))
     else None)%bool /\
  sc_outcome sc =
    (if Req_EM_T (im_mass (tr_impact (sc_trajectory sc))) 0 then CompleteAblation
     else if im_airburst (tr_impact (sc_trajectory sc))
     then AirburstAt (js_num (im_airburstAltitude (tr_impact (sc_trajectory sc))) / 1000)
     else if im_groundImpact (tr_impact (sc_trajectory sc))
     then GroundImpactAt (im_velocity (tr_impact (sc_trajectory sc)))
                         (im_massFraction (tr_impact (sc_trajectory sc)) * 100)
     else Decelerated).
Proof.
  unfold assess_with, np_opts; cbv zeta.
  destruct (it _ _ _) as [r|]; [|discriminate].
  intros H; injection H as <-; cbn [sc_trajectory sc_blast sc_outcome].
  split; [reflexivity|split; reflexivity].
Qed.


Lemma Svc_result_facts vInf d mat ang opts :
  valid_input vInf d mat ang -> valid_options opts ->
  on_result (Svc.integrateTrajectory (Svc.calculateEntryConditions vInf (Some ang))
               (calculateBodyProperties d mat) opts)
    (fun r => airburst_facts (tr_impact r) /\
       (0 <= im_mass (tr_impact r) <= bp_mass (calculateBodyProperties d mat) /\
        im_massFraction (tr_impact r) =
          im_mass (tr_impact r) / bp_mass (calculateBodyProperties d mat) /\
        im_groundImpact (tr_impact r) = rle (im_altitude (tr_impact r)) 0)).
Proof.
  intros Hin Hopt.
  apply (Svc_run_with vInf d mat ang opts
           (fun s => fragment_energy_pos s /\ fragment_altitude_set s /\
                     airburst_above_ground s)); [exact Hin|exact Hopt| | |].
  - intros s (Hm & _) (H1 & H2 & H3) Hh Hv; split; [|split].
    + apply Svc_step_energy_pos; [lra|exact Hv|exact H1].
    + apply Svc_step_fragment_altitude; exact H2.
    + apply Svc_step_airburst_above_ground; assumption.
  - split; [intros Hf; discriminate|split; [intros Hf; discriminate|intros a Ha; discriminate]].
  - intros s (Hm & _) (H1 & H2 & H3); split.
    + unfold airburst_facts;
        cbn [finish tr_impact im_airburst im_airburstEnergy im_airburstAltitude].
      unfold Svc.airburst_of; intros Hab; apply andb_true_iff in Hab; destruct Hab as [Hf _].
      destruct (H1 Hf) as (x & Hx & Hx0).
      destruct (st_airburstAltitude s) as [a|] eqn:Ha; [|exfalso; exact (H2 Hf Ha)].
      exists x, a; split; [exact Hx|split; [exact Hx0|split; [reflexivity|exact (H3 a Ha)]]].
    + cbn [finish tr_impact im_mass im_massFraction im_groundImpact im_altitude].
      split; [exact Hm|split; reflexivity].
Qed.

Lemma blast_consistent_of (eb : R -> R -> BlastEffects) (p : R) sc :
  0 < p ->
  (forall x a, 0 < x -> 0 < a -> eb x a = blast_radii p x a) ->
  airburst_facts (tr_impact (sc_trajectory sc)) ->
  sc_blast sc =
    (if im_airburst (tr_impact (sc_trajectory sc)) &&
        js_truthy (im_airburstEnergy (tr_impact (sc_trajectory sc)))
     then Some (eb (js_num (im_airburstEnergy (tr_impact (sc_trajectory sc))))
                   (js_num (im_airburstAltitude (tr_impact (sc_trajectory sc)))))
     else None)%bool ->
  blast_consistent sc.
Proof.
  intros Hp Heb Hf Hb; unfold blast_consistent.
  destruct (im_airburst (tr_impact (sc_trajectory sc))) eqn:Ha.
  - destruct (Hf Ha) as (x & a & Hx & Hx0 & Hal & Ha0).
    rewrite Hx, Hal in Hb; unfold js_truthy, js_num in Hb.
    destruct (Req_EM_T x 0) as [E|_]; [lra|]; cbn [andb] in Hb.
    rewrite Heb in Hb by assumption.
    split; [split; [intros _; reflexivity|intros _; rewrite Hb; discriminate]|].
    intros b Hbb; rewrite Hb in Hbb; injection Hbb as <-.
    rewrite Hx, Hal.
    split; [reflexivity|split; [reflexivity|split; [exact Hx0|split; [exact Ha0|]]]].
    split; [apply blast_radii_positive; exact Hp|apply blast_radii_severity].
  - cbn [andb] in Hb.
    split; [split; [intros H; exfalso; apply H; exact Hb|intros H; discriminate H]|].
    intros b Hbb; rewrite Hb in Hbb; discriminate Hbb.
Qed.


(** [blast] is present exactly when the trajectory reports an airburst; it
    then carries the airburst energy and altitude, both positive, so the
    estimate takes the main path: all radii set and positive, severity not
    ["none"].  This holds for every input in [part_005], and for valid
    inputs in the services version. *)
Theorem assessNEOImpact_blast_consistent (params : NEOParams) :
  on_scenario (V005.assessNEOImpact params) blast_consistent /\
  (valid_params params -> on_scenario (Svc.assessNEOImpact params) blast_consistent).
Proof.
  split; [|intros (Hin & Hopt)];
    unfold on_scenario.
  - destruct (V005.assessNEOImpact params) as [sc|] eqn:E; [|exact Logic.I].
    destruct (assess_with_spec _ _ _ _ _ E) as (Hit & Hb & _).
    pose proof (on_result_some _ _ _ (V005_airburst_facts _ _ _) Hit) as Hf.
    apply (blast_consistent_of V005.estimateBlastEffects 2000);
      [lra|exact estimateBlastEffects_positive_V005|exact Hf|exact Hb].
  - destruct (Svc.assessNEOImpact params) as [sc|] eqn:E; [|exact Logic.I].
    destruct (assess_with_spec _ _ _ _ _ E) as (Hit & Hb & _).
    pose proof (on_result_some _ _ _ (Svc_result_facts _ _ _ _ _ Hin Hopt) Hit) as [Hf _].
    apply (blast_consistent_of Svc.estimateBlastEffects 1000);
      [lra|exact estimateBlastEffects_positive_Svc|exact Hf|exact Hb].
Qed.

Lemma assessNEOImpact_blast_consistent_witness :
  let params := mkParams 15 50 (mkMaterial 3000 2e5 None) None None in
  valid_params params /\ on_scenario (Svc.assessNEOImpact params) blast_consistent.
Proof.
  intros params.
  assert (Hv : valid_params params)
    by (unfold valid_params, valid_input, np_opts; cbn; split; [lra|repeat split]).
  split; [exact Hv|].
  exact (proj2 (assessNEOImpact_blast_consistent params) Hv).
Defined.



(* ------------------------------------------------------------------ *)
(** ** The map page *)

Lemma neo_material_density density : mat_density (neo_material density) = density.
Proof. unfold neo_material; case_if; [reflexivity|case_if; reflexivity]. Qed.

Lemma neo_vInfinity_ge_5 velocity : 5 <= neo_vInfinity velocity.
Proof. unfold neo_vInfinity; apply Rmax_l. Qed.

(** [Math.sqrt] of the services entry speed: [sqrt (vInf^2 + 11.2^2)]
    km/s, at least the escape speed. *)
Lemma Svc_entry_velocity_ge vInf ang :
  11200 <= ec_velocity (Svc.calculateEntryConditions vInf ang).
Proof.
  unfold Svc.calculateEntryConditions; cbn [ec_velocity].
  assert (H : sqrt (V_ESCAPE_EARTH * V_ESCAPE_EARTH) <=
              sqrt (vInf * vInf + V_ESCAPE_EARTH * V_ESCAPE_EARTH)).
  { apply sqrt_le_1_alt; nra. }
  rewrite sqrt_square in H by (unfold V_ESCAPE_EARTH; lra).
  unfold V_ESCAPE_EARTH in *; lra.
Qed.

Lemma Svc_integrate_some entry body options :
  pos_or_unset (opt_dt options) ->
  exists r, Svc.integrateTrajectory entry body options = Some r.
Proof.
  intros Hdt.
  set (e := make_env entry body options).
  assert (Hpos : 0 < env_dt e) by (apply js_or_pos; [exact Hdt|lra]).
  unfold Svc.integrateTrajectory; fold e.
  destruct (Svc.loop e _ _) as [s|] eqn:Hl; [eexists; reflexivity|].
  exfalso; revert Hl; apply Svc_loop_some; cbn [initial_state st_t];
    unfold Svc.MAX_FLIGHT_TIME; [lra|].
  pose proof (flight_fuel_enough 300 (env_dt e) Hpos ltac:(lra)); lra.
Qed.

(** A pass of the services loop that starts slower than gravity alone
    would brake within one time step ends with a negative [v1]: the speed
    is clamped to 0 and [h - v1 * sin(gamma) * dt] lies above [h]. *)
Lemma Svc_step_rise e s :
  env_ok e -> 0 < st_m s -> 0 <= st_A s -> 0 <= st_v s ->
  st_v s < GRAVITY * sin (env_gamma e) * env_dt e ->
  st_h s < st_h (step_state (Svc.step e s)) /\ st_v (step_state (Svc.step e s)) = 0.
Proof.
  intros (Hdt & Hlam & HQ & HCd & Hfm & HM & Harea & Hsin & Hiv) Hm HA Hv Hg.
  unfold Svc.step; cbv zeta.
  set (A' := if (_ : bool) then st_A s * env_fragMult e else st_A s).
  assert (HA' : 0 <= A') by (unfold A'; case_if; [apply Rmult_le_pos|]; lra).
  set (rho := atmosphericDensity (st_h s)).
  assert (Hrho : 0 < rho) by apply atmosphericDensity_pos.
  assert (Hs : 0 < sin (env_gamma e)).
  { destruct (Rle_lt_or_eq_dec _ _ Hsin) as [H|H]; [exact H|].
    rewrite <- H in Hg; lra. }
  set (v1 := st_v s + _ * env_dt e).
  assert (Hv1 : v1 < 0).
  { unfold v1.
    assert (0 <= env_Cd e * A' / (2 * st_m s) * rho * st_v s * st_v s).
    { repeat apply Rmult_le_pos; try lra; left; apply Rinv_0_lt_compat; lra. }
    unfold GRAVITY in *; nra. }
  assert (Hh : 0 < - (v1 * sin (env_gamma e) * env_dt e)).
  { assert (0 < - v1 * sin (env_gamma e)) by nra. nra. }
  clearbody A' rho v1.
  split_ifs; cbn [step_state st_v st_h]; bool_facts; split; lra.
Qed.

(** The speed [sqrt(vInf^2 + 11.2^2) * 1000] built from the [vInf] of the
    map page. *)
Lemma map_hyperbolic_speed velocity :
  0 <= velocity ->
  sqrt (neo_vInfinity velocity * neo_vInfinity velocity + V_ESCAPE_EARTH * V_ESCAPE_EARTH)
    * 1000 = Rmax velocity (sqrt 150.44 * 1000).
Proof.
  intros Hvel.
  unfold neo_vInfinity, V_ESCAPE_EARTH.
  set (w := velocity / 1000).
  assert (Hw : 0 <= w) by (unfold w; lra).
  assert (Hvw : velocity = w * 1000) by (unfold w; field).
  set (q := Rmax 0 (w * w - 11.2 * 11.2)).
  assert (Hq0 : 0 <= q) by apply Rmax_l.
  assert (Hq1 : w * w - 11.2 * 11.2 <= q) by apply Rmax_r.
  assert (Hqq := sqrt_sqrt q Hq0).
  assert (Hsq := sqrt_pos q).
  destruct (Rle_lt_dec 5 (sqrt q)) as [H5|H5].
  - rewrite Rmax_right by exact H5.
    assert (Hq : q = w * w - 11.2 * 11.2).
    { assert (H25 : 25 <= q) by nra.
      destruct (Rle_dec 0 (w * w - 11.2 * 11.2)) as [Hp|Hp].
      - unfold q; apply Rmax_right; exact Hp.
      - exfalso; assert (Hz : q = 0) by (unfold q; apply Rmax_left; lra); lra. }
    rewrite Hqq, Hq.
    replace (w * w - 11.2 * 11.2 + 11.2 * 11.2) with (w * w) by ring.
    rewrite sqrt_square by exact Hw.
    assert (Hle : sqrt 150.44 <= w).
    { rewrite <- (sqrt_square w Hw); apply sqrt_le_1_alt; nra. }
    rewrite Rmax_left; lra.
  - rewrite Rmax_left by lra.
    replace (5 * 5 + 11.2 * 11.2) with 150.44 by lra.
    assert (Hle : w <= sqrt 150.44).
    { rewrite <- (sqrt_square w Hw); apply sqrt_le_1_alt; nra. }
    rewrite Rmax_right; lra.
Qed.

(** The map page turns its impact speed (m/s) into a hyperbolic excess
    speed of at least 5 km/s; the services entry speed built from it is
    the form's speed itself whenever that is at least
    [sqrt(5^2 + 11.2^2)] km/s (about 12.27 km/s), and that floor below. *)
Theorem map_entry_velocity (velocity : R) (angle : option R) :
  0 <= velocity ->
  5 <= neo_vInfinity velocity /\
  ec_velocity (Svc.calculateEntryConditions (neo_vInfinity velocity) angle) =
    Rmax velocity (sqrt 150.44 * 1000).
Proof.
  intros Hvel; split; [apply neo_vInfinity_ge_5|].
  unfold Svc.calculateEntryConditions; cbn [ec_velocity].
  apply map_hyperbolic_speed; exact Hvel.
Qed.

Lemma map_entry_velocity_witness :
  0 <= 20000 /\
  ec_velocity (Svc.calculateEntryConditions (neo_vInfinity 20000) (Some 45)) =
    Rmax 20000 (sqrt 150.44 * 1000).
Proof.
  assert (H : 0 <= 20000) by lra.
  split; [exact H|].
  exact (proj2 (map_entry_velocity 20000 (Some 45) H)).
Defined.

(** For a positive diameter and density and an angle in (0, 90], the map
    page always obtains a scenario: its [impactScenario.trajectory.impact]
    read is defined, no trajectory is recorded ([recordTrajectory: false]),
    the body has the form's density, and the surviving mass fraction lies
    in [0, 1]. *)
Theorem map_impactScenario_ok (velocity diameter density entryAngle : R) :
  0 < diameter -> 0 < density -> 0 < entryAngle <= 90 ->
  exists sc, map_impactScenario velocity diameter density entryAngle = Some sc /\
    tr_trajectory (sc_trajectory sc) = [] /\
    bp_density (sc_body sc) = density /\
    0 <= im_massFraction (tr_impact (sc_trajectory sc)) <= 1.
Proof.
  intros Hd Hrho Ha.
  set (opts := mkOptions None None None None None (Some false) None).
  assert (Hin : valid_input (neo_vInfinity velocity) diameter (neo_material density)
                  entryAngle).
  { unfold valid_input; rewrite neo_material_density.
    pose proof (neo_vInfinity_ge_5 velocity).
    split; [exact Hd|split; [exact Hrho|split; [lra|exact Ha]]]. }
  assert (Hopt : valid_options opts) by (unfold valid_options; cbn; repeat split).
  pose proof (Svc_no_recording
                (Svc.calculateEntryConditions (neo_vInfinity velocity) (Some entryAngle))
                (calculateBodyProperties diameter (neo_material density)) opts
                ltac:(cbn; discriminate)) as Hrec.
  pose proof (Svc_run_post (neo_vInfinity velocity) diameter (neo_material density)
                entryAngle opts
                (fun r => 0 <= im_massFraction (tr_impact r) <= 1) Hin Hopt) as Hfr.
  destruct (Svc_integrate_some
              (Svc.calculateEntryConditions (neo_vInfinity velocity) (Some entryAngle))
              (calculateBodyProperties diameter (neo_material density)) opts Logic.I)
    as [r Hr].
  unfold map_impactScenario, Svc.assessNEOImpact, assess_with, neo_params.
  cbn [np_vInfinity np_diameter np_material np_entryAngle np_options default_angle].
  fold opts; rewrite Hr.
  eexists; split; [reflexivity|]; cbn [sc_trajectory sc_body].
  rewrite Hr in Hrec, Hfr; cbn [on_result] in Hrec, Hfr.
  split; [exact Hrec|split].
  - cbn [calculateBodyProperties bp_density]; apply neo_material_density.
  - apply Hfr; intros s (Hm & _); cbn [finish tr_impact im_massFraction].
    apply mass_fraction_bounds; [exact Hm|].
    apply body_mass_pos; [exact Hd|rewrite neo_material_density; exact Hrho].
Qed.

Lemma map_impactScenario_ok_witness :
  0 < 50 /\ 0 < 3000 /\ 0 < 45 <= 90 /\
  exists sc, map_impactScenario 20000 50 3000 45 = Some sc /\
    tr_trajectory (sc_trajectory sc) = [] /\
    bp_density (sc_body sc) = 3000 /\
    0 <= im_massFraction (tr_impact (sc_trajectory sc)) <= 1.
Proof.
  assert (H1 : 0 < 50) by lra.
  assert (H2 : 0 < 3000) by lra.
  assert (H3 : 0 < 45 <= 90) by lra.
  split; [exact H1|split; [exact H2|split; [exact H3|]]].
  exact (map_impactScenario_ok 20000 50 3000 45 H1 H2 H3).
Defined.

(** Services version: the loop test [h > 0 && v > 300] is passed at entry;
    when a single time step is longer than the time gravity needs to cancel
    the entry speed ([v < g sin(gamma) dt]), the first pass makes [v1]
    negative, the speed is clamped to 0 and the altitude is pushed above
    the 100 km entry altitude, where the run ends: the reported final
    altitude exceeds 100 km. *)
Theorem Svc_altitude_can_rise
    (vInfinity diameter : R) (material : Material) (angle : R)
    (options : IntegrationOptions) (dt : R) :
  valid_input vInfinity diameter material angle -> valid_options options ->
  opt_dt options = Some dt ->
  ec_velocity (Svc.calculateEntryConditions vInfinity (Some angle)) <
    GRAVITY * sin (toRadians angle) * dt ->
  exists r,
    Svc.integrateTrajectory (Svc.calculateEntryConditions vInfinity (Some angle))
      (calculateBodyProperties diameter material) options = Some r /\
    H_ENTRY < im_altitude (tr_impact r).
Proof.
  intros Hin Hopt Hdt Hlt.
  set (entry := Svc.calculateEntryConditions vInfinity (Some angle)) in *.
  set (body := calculateBodyProperties diameter material).
  set (e := make_env entry body options).
  assert (Henv : env_ok e) by (apply Svc_env_ok; assumption).
  assert (Hedt : env_dt e = dt).
  { assert (Hd : 0 < dt) by (pose proof (proj1 Hopt) as H; rewrite Hdt in H; exact H).
    unfold e, make_env; cbn [env_dt]; rewrite Hdt; apply js_or_some; lra. }
  assert (Hgam : env_gamma e = toRadians angle) by reflexivity.
  assert (Hiv : env_initialVelocity e = ec_velocity entry) by reflexivity.
  assert (Hge := Svc_entry_velocity_ge vInfinity (Some angle)); fold entry in Hge.
  destruct (Svc_integrate_some entry body options (proj1 Hopt)) as [r Hr].
  exists r; split; [exact Hr|].
  revert Hr; unfold Svc.integrateTrajectory; fold e.
  destruct (flight_fuel Svc.MAX_FLIGHT_TIME (env_dt e)) as [|n]; [discriminate|].
  cbn [Svc.loop].
  set (s0 := initial_state e).
  assert (Hs0 : Svc_inv e s0) by (apply Svc_inv_initial; exact Henv).
  assert (Hh0 : st_h s0 = H_ENTRY) by reflexivity.
  assert (Hv0 : st_v s0 = ec_velocity entry) by reflexivity.
  replace (rgt (st_h s0) 0 && rgt (st_v s0) Svc.MIN_VELOCITY)%bool with true
    by (rewrite Hh0, Hv0; unfold rgt, Svc.MIN_VELOCITY, H_ENTRY;
        symmetry; apply andb_true_iff; split; apply rlt_spec; lra).
  destruct Hs0 as ((Hm0 & _) & HA0 & _).
  assert (Hrise : st_h s0 < st_h (step_state (Svc.step e s0)) /\
                  st_v (step_state (Svc.step e s0)) = 0).
  { apply Svc_step_rise; [exact Henv|exact Hm0|exact HA0|rewrite Hv0; lra|].
    rewrite Hv0, Hgam, Hedt; exact Hlt. }
  destruct (Svc.step e s0) as [s1|s1]; cbn [step_state] in Hrise;
    destruct Hrise as [Hh1 Hv1].
  - destruct n as [|n]; [discriminate|].
    cbn [Svc.loop].
    replace (rgt (st_h s1) 0 && rgt (st_v s1) Svc.MIN_VELOCITY)%bool with false
      by (rewrite Hv1; unfold rgt, Svc.MIN_VELOCITY;
          destruct (rlt 0 (st_h s1)); [|reflexivity]; cbn [andb];
          symmetry; apply rlt_false; lra).
    intros H; injection H as <-; cbn [finish tr_impact im_altitude]; lra.
  - intros H; injection H as <-; cbn [finish tr_impact im_altitude]; lra.
Qed.

Lemma Svc_altitude_can_rise_witness :
  let opts := mkOptions (Some 2000) None None None None None None in
  valid_input 0 10 (mkMaterial 3000 2e5 None) 90 /\ valid_options opts /\
  opt_dt opts = Some 2000 /\
  ec_velocity (Svc.calculateEntryConditions 0 (Some 90)) <
    GRAVITY * sin (toRadians 90) * 2000 /\
  exists r,
    Svc.integrateTrajectory (Svc.calculateEntryConditions 0 (Some 90))
      (calculateBodyProperties 10 (mkMaterial 3000 2e5 None)) opts = Some r /\
    H_ENTRY < im_altitude (tr_impact r).
Proof.
  intros opts.
  assert (H1 : valid_input 0 10 (mkMaterial 3000 2e5 None) 90)
    by (unfold valid_input; cbn; lra).
  assert (H2 : valid_options opts) by (unfold valid_options; cbn; repeat split; lra).
  assert (H3 : opt_dt opts = Some 2000) by reflexivity.
  assert (H4 : ec_velocity (Svc.calculateEntryConditions 0 (Some 90)) <
               GRAVITY * sin (toRadians 90) * 2000).
  { unfold Svc.calculateEntryConditions; cbn [ec_velocity].
    rewrite sin_toRadians_90.
    replace (0 * 0 + V_ESCAPE_EARTH * V_ESCAPE_EARTH)
      with (V_ESCAPE_EARTH * V_ESCAPE_EARTH) by ring.
    rewrite sqrt_square by (unfold V_ESCAPE_EARTH; lra).
    unfold V_ESCAPE_EARTH, GRAVITY; lra. }
  split; [exact H1|split; [exact H2|split; [exact H3|split; [exact H4|]]]].
  exact (Svc_altitude_can_rise 0 10 (mkMaterial 3000 2e5 None) 90 opts 2000 H1 H2 H3 H4).
Defined.

(* ------------------------------------------------------------------ *)
(** ** The 10 m minimum of [rangeForOverpressure] *)

(** [if (r_term <= 0) return 0.01]. *)
Lemma range_small E alt p :
  0 < p -> r_term_of E alt p <= 0 -> rangeForOverpressure E alt p = 0.01.
Proof.
  intros Hp Hr; unfold rangeForOverpressure; cbv zeta.
  rewrite (proj2 (rle_false _ _) Hp).
  assert (Hd : 0 < p / js_pow E (2/3) * js_pow (1 + alt / 6789) 2).
  { apply Rmult_lt_0_compat; [|apply js_pow_pos].
    unfold Rdiv; apply Rmult_lt_0_compat; [lra|apply Rinv_0_lt_compat, js_pow_pos]. }
  rewrite (proj2 (rle_false _ _) Hd).
  unfold r_term_of in *.
  rewrite (proj2 (rle_spec _ _) Hr).
  reflexivity.
Qed.

Lemma js_pow_one y : js_pow 1 y = 1.
Proof. unfold js_pow, Rpower; rewrite ln_1, Rmult_0_r; apply exp_0. Qed.

Lemma js_pow_eighth : js_pow 0.125 (2/3) = 0.25.
Proof.
  assert (H : 0.125 = Rpower 0.5 (INR 3))
    by (rewrite Rpower_pow by lra; cbn [pow]; lra).
  unfold js_pow; rewrite H, Rpower_mult.
  replace (INR 3 * (2/3)) with (INR 2) by (cbn [INR]; lra).
  rewrite Rpower_pow by lra; cbn [pow]; lra.
Qed.

Lemma js_pow_alt_3543 : js_pow (1 + 17264.427 / 6789) 2 = 12.552849.
Proof.
  replace (1 + 17264.427 / 6789) with 3.543 by lra.
  assert (H : Rpower 3.543 (INR 2) = 3.543 ^ 2) by (apply Rpower_pow; lra).
  cbn [INR pow] in H; replace (1 + 1) with 2 in H by lra.
  unfold js_pow; rewrite H; lra.
Qed.

Lemma js_pow_243 : js_pow 243 (1/2.5) = 9.
Proof.
  assert (H : 243 = Rpower 3 (INR 5))
    by (rewrite Rpower_pow by lra; cbn [pow]; lra).
  unfold js_pow; rewrite H, Rpower_mult.
  replace (INR 5 * (1/2.5)) with (INR 2) by (cbn [INR]; lra).
  rewrite Rpower_pow by lra; cbn [pow]; lra.
Qed.

(** At 17264.427 m, 0.000125 Mt leaves the 100 kPa range term negative (the
    10 m minimum is returned), while 0.001 Mt makes it positive but below
    243, so the computed range is under 10 m. *)
Lemma extreme_at_17264 p_window :
  be_radiusExtreme (blast_radii p_window 0.000125 17264.427) = Some 0.01 /\
  exists r, be_radiusExtreme (blast_radii p_window 0.001 17264.427) = Some r /\
            r < 0.01.
Proof.
  assert (Ha : rgt (17264.427 / 1000) H_REF = false)
    by (unfold rgt, H_REF; apply rlt_false; lra).
  split.
  - unfold blast_radii; cbv zeta; cbn [be_radiusExtreme]; rewrite Ha.
    replace (0.000125 * 1000) with 0.125 by lra.
    rewrite range_small; [f_equal; lra|lra|].
    unfold r_term_of; rewrite js_pow_eighth, js_pow_alt_3543.
    set (X := 3.14e11 / (100000 / 0.25 * 12.552849)).
    assert (HX : X * 5021139.6 = 3.14e11) by (unfold X; replace (100000 / 0.25 * 12.552849) with 5021139.6 by lra;
          unfold Rdiv; rewrite Rmult_assoc, Rinv_l by lra; ring).
    lra.
  - unfold blast_radii; cbv zeta; cbn [be_radiusExtreme]; rewrite Ha.
    replace (0.001 * 1000) with 1 by lra.
    assert (Hr : 0 < r_term_of 1 17264.427 100000 <= 243).
    { unfold r_term_of; rewrite js_pow_one, js_pow_alt_3543.
      set (X := 3.14e11 / (100000 / 1 * 12.552849)).
      assert (HX : X * 1255284.9 = 3.14e11) by (unfold X; replace (100000 / 1 * 12.552849) with 1255284.9 by lra;
          unfold Rdiv; rewrite Rmult_assoc, Rinv_l by lra; ring).
      lra. }
    rewrite range_eq by lra.
    eexists; split; [reflexivity|].
    rewrite js_pow_one.
    assert (Hle : js_pow (r_term_of 1 17264.427 100000) (1/2.5) <= js_pow 243 (1/2.5)).
    { unfold js_pow; apply Rle_Rpower_l; lra. }
    rewrite js_pow_243 in Hle; lra.
Qed.

(** The 100 kPa radius of [estimateBlastEffects] is not monotone in the
    energy, in either version: past the [r_term <= 0] guard the range
    [r_term^(1/2.5) * E^(1/3) / 1000] starts near 0, below the 10 m
    returned under the guard, so a larger energy at the same altitude can
    give a smaller [radiusExtreme]. *)
Theorem estimateBlastEffects_extreme_not_monotone :
  ~ (forall energy1 energy2 altitude r1 r2,
       0 < energy1 <= energy2 -> 0 < altitude ->
       be_radiusExtreme (V005.estimateBlastEffects energy1 altitude) = Some r1 ->
       be_radiusExtreme (V005.estimateBlastEffects energy2 altitude) = Some r2 ->
       r1 <= r2) /\
  ~ (forall energy1 energy2 altitude r1 r2,
       0 < energy1 <= energy2 -> 0 < altitude ->
       be_radiusExtreme (Svc.estimateBlastEffects energy1 altitude) = Some r1 ->
       be_radiusExtreme (Svc.estimateBlastEffects energy2 altitude) = Some r2 ->
       r1 <= r2).
Proof.
  split; intros Hmono.
  - destruct (extreme_at_17264 2000) as [H1 (r & H2 & Hr)].
    assert (Hle := Hmono 0.000125 0.001 17264.427 0.01 r ltac:(lra) ltac:(lra)).
    rewrite !estimateBlastEffects_positive_V005 in Hle by lra.
    specialize (Hle H1 H2); lra.
  - destruct (extreme_at_17264 1000) as [H1 (r & H2 & Hr)].
    assert (Hle := Hmono 0.000125 0.001 17264.427 0.01 r ltac:(lra) ltac:(lra)).
    rewrite !estimateBlastEffects_positive_Svc in Hle by lra.
    specialize (Hle H1 H2); lra.
Qed.

(* ------------------------------------------------------------------ *)
(** ** Final speed in [part_005] *)

(** A pass of the [part_005] loop leaves the speed in [0, max(v0, 200)]:
    the Euler update only brakes, [Math.max(0, v_new)] clamps it at 0, and
    the terminal-velocity mode gives [Math.min(v_terminal, 200)]. *)
Lemma V005_step_speed e s :
  env_ok e -> V005_inv e s ->
  0 <= st_v (step_state (V005.step e s)) <= Rmax (env_initialVelocity e) 200.
Proof.
  intros (Hdt & Hlam & HQ & HCd & Hfm & HM & Harea & Hsin & Hiv) (Hm & Hv & HA & _).
  unfold V005.step; cbv zeta.
  set (A' := if (_ : bool) then st_A s * env_fragMult e else st_A s).
  assert (HA' : 0 <= A') by (unfold A'; case_if; [apply Rmult_le_pos|]; lra).
  set (rho := atmosphericDensity (st_h s)).
  assert (Hrho : 0 < rho) by apply atmosphericDensity_pos.
  set (m1 := if rgt (st_v s) 3000 then (_ : R) else st_m s).
  set (v_new := st_v s + _ * env_dt e).
  assert (Hvn : v_new <= st_v s).
  { unfold v_new.
    assert (0 <= env_Cd e * A' / (2 * st_m s) * rho * st_v s * st_v s).
    { repeat apply Rmult_le_pos; try lra; left; apply Rinv_0_lt_compat; lra. }
    assert (0 <= GRAVITY * sin (env_gamma e)) by (unfold GRAVITY; nra).
    nra. }
  set (v1 := if (rlt v_new V005.MIN_VELOCITY && (_:bool) && (_:bool))%bool
             then (_:R) else (_:R)).
  assert (Hv1 : 0 <= v1 <= Rmax (env_initialVelocity e) 200).
  { assert (HR := Rmax_r (env_initialVelocity e) 200).
    unfold v1; case_if.
    - split; [apply Rmin_glb; [apply sqrt_pos|lra]|].
      pose proof (Rmin_r (sqrt (2 * m1 * GRAVITY / (rho * env_Cd e * A'))) 200); lra.
    - split; [apply Rmax_l|apply Rmax_lub; lra]. }
  clearbody A' rho m1 v_new v1.
  split_ifs; cbn [step_state st_v]; exact Hv1.
Qed.

(** [part_005]: for valid inputs the final speed lies between 0 and the
    larger of the entry speed and 200 m/s (the cap of the terminal-velocity
    mode), and the reported impact energy is at most the kinetic energy of
    the whole body at that speed (in Mt TNT). *)
Theorem V005_final_speed_energy_bounds
    (vInfinity diameter : R) (material : Material) (angle : R)
    (options : IntegrationOptions) :
  valid_input vInfinity diameter material angle ->
  valid_options options ->
  on_result (V005.integrateTrajectory
               (V005.calculateEntryConditions vInfinity (Some angle))
               (calculateBodyProperties diameter material) options)
    (fun r =>
       0 <= im_velocity (tr_impact r) <=
         Rmax (ec_velocity (V005.calculateEntryConditions vInfinity (Some angle))) 200 /\
       0 <= im_impactEnergy (tr_impact r) <=
         0.5 * bp_mass (calculateBodyProperties diameter material) *
         Rmax (ec_velocity (V005.calculateEntryConditions vInfinity (Some angle))) 200 ^ 2
         / 4.184e15).
Proof.
  intros Hin Hopt.
  assert (Henv := V005_env_ok _ _ _ _ _ Hin Hopt).
  assert (HM := body_mass_pos diameter material (proj1 Hin) (proj1 (proj2 Hin))).
  set (B := Rmax (ec_velocity (V005.calculateEntryConditions vInfinity (Some angle))) 200).
  assert (HB : 200 <= B) by apply Rmax_r.
  apply (V005_run_with vInfinity diameter material angle options
           (fun s => 0 <= st_v s <= B)); [exact Hin|exact Hopt| | |].
  - intros s Hs _ _; exact (V005_step_speed _ s Henv Hs).
  - cbn [initial_state st_v make_env env_initialVelocity].
    split; [apply V005_entry_velocity_nonneg, Hin|apply Rmax_l].
  - intros s (Hm & _) Hk; cbn [finish tr_impact im_velocity im_impactEnergy make_env env_body].
    cbn [make_env env_body] in Hm.
    split; [exact Hk|].
    set (M := bp_mass (calculateBodyProperties diameter material)) in *.
    assert (Hvv : st_v s * st_v s <= B * B) by nra.
    assert (Hmv : st_m s * (st_v s * st_v s) <= M * (B * B))
      by (apply Rmult_le_compat; nra).
    assert (Hk0 : 0 < / 4.184e15) by (apply Rinv_0_lt_compat; lra).
    unfold Rdiv; split.
    + apply Rmult_le_pos; [|lra]. assert (0 <= st_m s * (st_v s * st_v s)) by nra. nra.
    + apply Rmult_le_compat_r; [lra|]. cbn [pow]. nra.
Qed.

Lemma V005_final_speed_energy_bounds_witness :
  let stony := mkMaterial 3000 2e5 None in
  valid_input 0.1 50 stony 45 /\ valid_options no_options /\
  on_result (V005.integrateTrajectory (V005.calculateEntryConditions 0.1 (Some 45))
               (calculateBodyProperties 50 stony) no_options)
    (fun r =>
       0 <= im_velocity (tr_impact r) <=
         Rmax (ec_velocity (V005.calculateEntryConditions 0.1 (Some 45))) 200 /\
       0 <= im_impactEnergy (tr_impact r) <=
         0.5 * bp_mass (calculateBodyProperties 50 stony) *
         Rmax (ec_velocity (V005.calculateEntryConditions 0.1 (Some 45))) 200 ^ 2
         / 4.184e15).
Proof.
  intros stony.
  assert (Hin : valid_input 0.1 50 stony 45) by (unfold valid_input; cbn; lra).
  assert (Hopt : valid_options no_options) by (repeat split).
  split; [exact Hin|split; [exact Hopt|]].
  exact (V005_final_speed_energy_bounds 0.1 50 stony 45 no_options Hin Hopt).
Defined.

(* ------------------------------------------------------------------ *)
(** ** Slow entries in [part_005] *)

(** With an entry speed of at most 3000 m/s the speed never exceeds
    3000 m/s, so the ablation branch [if (v > 3000)] is never taken and a
    pass keeps the mass. *)
Lemma V005_step_mass_kept e s :
  env_ok e -> V005_inv e s -> env_initialVelocity e <= 3000 ->
  st_m (step_state (V005.step e s)) = st_m s.
Proof.
  intros Henv Hs Hiv.
  destruct Hs as (Hm & Hv & HA & Ht).
  assert (HB : Rmax (env_initialVelocity e) 200 <= 3000) by (apply Rmax_lub; lra).
  unfold V005.step; cbv zeta.
  assert (Hr : rgt (st_v s) 3000 = false) by (unfold rgt; apply rlt_false; lra).
  rewrite Hr.
  assert (Hm0 : rle (st_m s) 0 = false) by (apply rle_false; lra).
  rewrite Hm0; cbn [andb].
  case_if; cbn [step_state st_m]; reflexivity.
Qed.

(** [part_005]: a body whose [vInfinity] is below 3 km/s enters at
    [vInfinity * 1000] m/s, is never ablated and ends with its whole mass:
    [impact.mass] is the initial mass and [massFraction] is 1. *)
Theorem V005_slow_entry_keeps_mass
    (vInfinity diameter : R) (material : Material) (angle : R)
    (options : IntegrationOptions) :
  valid_input vInfinity diameter material angle ->
  valid_options options ->
  vInfinity < 3 ->
  on_result (V005.integrateTrajectory
               (V005.calculateEntryConditions vInfinity (Some angle))
               (calculateBodyProperties diameter material) options)
    (fun r => im_mass (tr_impact r) = bp_mass (calculateBodyProperties diameter material) /\
              im_massFraction (tr_impact r) = 1).
Proof.
  intros Hin Hopt H3.
  assert (Henv := V005_env_ok _ _ _ _ _ Hin Hopt).
  assert (HM := body_mass_pos diameter material (proj1 Hin) (proj1 (proj2 Hin))).
  assert (Hiv : ec_velocity (V005.calculateEntryConditions vInfinity (Some angle)) <= 3000).
  { unfold V005.calculateEntryConditions; cbn [ec_velocity].
    rewrite (proj2 (rlt_spec _ _) H3); lra. }
  apply (V005_run_with vInfinity diameter material angle options
           (fun s => st_m s = bp_mass (calculateBodyProperties diameter material)));
    [exact Hin|exact Hopt| | |].
  - intros s Hs Hk _; rewrite (V005_step_mass_kept _ s Henv Hs Hiv); exact Hk.
  - reflexivity.
  - intros s _ Hk; cbn [finish tr_impact im_mass im_massFraction make_env env_body].
    rewrite Hk; split; [reflexivity|].
    unfold Rdiv; apply Rinv_r; lra.
Qed.

Lemma V005_slow_entry_keeps_mass_witness :
  let stony := mkMaterial 3000 2e5 None in
  valid_input 2 50 stony 45 /\ valid_options no_options /\ 2 < 3 /\
  on_result (V005.integrateTrajectory (V005.calculateEntryConditions 2 (Some 45))
               (calculateBodyProperties 50 stony) no_options)
    (fun r => im_mass (tr_impact r) = bp_mass (calculateBodyProperties 50 stony) /\
              im_massFraction (tr_impact r) = 1).
Proof.
  intros stony.
  assert (Hin : valid_input 2 50 stony 45) by (unfold valid_input; cbn; lra).
  assert (Hopt : valid_options no_options) by (repeat split).
  assert (H3 : 2 < 3) by lra.
  split; [exact Hin|split; [exact Hopt|split; [exact H3|]]].
  exact (V005_slow_entry_keeps_mass 2 50 stony 45 no_options Hin Hopt H3).
Defined.

(* ------------------------------------------------------------------ *)
(** ** The map page of [part_001] *)

Lemma neo_vInfinity_001_high velocity :
  3000 <= velocity -> neo_vInfinity_001 velocity = neo_vInfinity velocity.
Proof.
  intros Hv; unfold neo_vInfinity_001, neo_vInfinity; cbv zeta.
  rewrite (proj2 (rlt_false _ _)) by lra; reflexivity.
Qed.

(** The [vInf] of the [part_001] map page, turned into an entry speed by
    [calculateEntryConditions]: with the [part_005] version the form's
    speed comes back unchanged below 3000 m/s, and from 3000 m/s on it is
    raised to at least [sqrt(5^2 + 11.2^2)] km/s (about 12.27 km/s), so the
    entry speed jumps at 3000 m/s; with the services version every speed
    below 3000 m/s enters at 11.2 km/s or more, and from 3000 m/s on both
    versions agree. *)
Theorem map001_entry_velocity (velocity : R) (angle : option R) :
  0 <= velocity ->
  (velocity < 3000 ->
     ec_velocity (V005.calculateEntryConditions (neo_vInfinity_001 velocity) angle) =
       velocity /\
     11200 <= ec_velocity (Svc.calculateEntryConditions (neo_vInfinity_001 velocity) angle)) /\
  (3000 <= velocity ->
     ec_velocity (V005.calculateEntryConditions (neo_vInfinity_001 velocity) angle) =
       Rmax velocity (sqrt 150.44 * 1000) /\
     ec_velocity (Svc.calculateEntryConditions (neo_vInfinity_001 velocity) angle) =
       Rmax velocity (sqrt 150.44 * 1000)).
Proof.
  intros Hvel; split; intros Hv.
  - split; [|apply Svc_entry_velocity_ge].
    assert (Hlow : neo_vInfinity_001 velocity = velocity / 1000).
    { unfold neo_vInfinity_001; cbv zeta.
      rewrite (proj2 (rlt_spec _ _)) by lra; reflexivity. }
    unfold V005.calculateEntryConditions; cbn [ec_velocity].
    rewrite Hlow, (proj2 (rlt_spec _ _)) by lra; field.
  - rewrite neo_vInfinity_001_high by exact Hv.
    assert (H5 := neo_vInfinity_ge_5 velocity).
    unfold V005.calculateEntryConditions, Svc.calculateEntryConditions; cbn [ec_velocity].
    rewrite (proj2 (rlt_false _ _)) by lra.
    split; apply map_hyperbolic_speed; exact Hvel.
Qed.

Lemma map001_entry_velocity_witness :
  0 <= 2500 /\
  ec_velocity (V005.calculateEntryConditions (neo_vInfinity_001 2500) (Some 45)) = 2500.
Proof.
  assert (H : 0 <= 2500) by lra.
  split; [exact H|].
  exact (proj1 (proj1 (map001_entry_velocity 2500 (Some 45) H) ltac:(lra))).
Defined.

(* ------------------------------------------------------------------ *)
(** ** Recorded trajectories *)

Lemma record_step_head e n first rest x :
  exists rest', record_step e n (first :: rest) x = first :: rest'.
Proof.
  unfold record_step; case_if; [exists (rest ++ [x]); reflexivity|exists rest; reflexivity].
Qed.

Lemma recording_setup entry body options :
  opt_recordTrajectory options = Some true ->
  let e := make_env entry body options in
  let first := mkTS 0 H_ENTRY (ec_velocity entry) (bp_mass body) (env_gamma e)
                 (dynamicPressure (atmosphericDensity H_ENTRY) (ec_velocity entry))
                 (atmosphericDensity H_ENTRY) false in
  st_trajectory (initial_state e) = [first] /\
  (forall ab s rest, st_trajectory s = first :: rest ->
     recorded_ends entry body (finish e ab s)).
Proof.
  intros Hr e first.
  assert (He : env_recordTrajectory e = true)
    by (unfold e, make_env; cbn [env_recordTrajectory]; rewrite Hr; reflexivity).
  split.
  - unfold initial_state; cbn [st_trajectory]; rewrite He; reflexivity.
  - intros ab s rest Hs; unfold finish; cbv zeta; rewrite He, Hs.
    eexists first, rest, _; split; [reflexivity|].
    cbn [tr_impact im_altitude im_velocity im_mass ts_time ts_altitude ts_velocity
         ts_mass first].
    repeat split; reflexivity.
Qed.

Lemma head_kept e s first rest t' :
  st_trajectory s = first :: rest ->
  (t' = st_trajectory s \/
   exists x, ts_time x = st_t s + env_dt e /\
     t' = record_step e (st_stepCount s) (st_trajectory s) x) ->
  exists rest', t' = first :: rest'.
Proof.
  intros Hs [->|(x & _ & ->)]; rewrite Hs; [exists rest; reflexivity|apply record_step_head].
Qed.

(** With [recordTrajectory: true] the trajectory of either version opens
    with the entry record (time 0, altitude 100 km, the entry speed, the
    initial mass) and its last record holds the final altitude, speed and
    mass reported in [impact]. *)
Theorem integrateTrajectory_recorded_ends
    (entry : EntryConditions) (body : BodyProperties) (options : IntegrationOptions) :
  opt_recordTrajectory options = Some true ->
  on_result (V005.integrateTrajectory entry body options) (recorded_ends entry body) /\
  on_result (Svc.integrateTrajectory entry body options) (recorded_ends entry body).
Proof.
  intros Hr.
  destruct (recording_setup entry body options Hr) as [Hinit Hfin].
  set (e := make_env entry body options) in *.
  set (first := mkTS 0 H_ENTRY _ _ _ _ _ false) in *.
  split.
  - apply (V005_on_result _ _ _ (fun s => exists rest, st_trajectory s = first :: rest)
                               (fun s => exists rest, st_trajectory s = first :: rest)); fold e.
    + auto.
    + intros s (rest & Hs) _; apply step_result_cases.
      destruct (V005_step_shape e s) as [_ Htr].
      exact (head_kept e s first rest (st_trajectory (step_state (V005.step e s))) Hs Htr).
    + exists []; exact Hinit.
    + intros s (rest & Hs); exact (Hfin _ s rest Hs).
  - apply (Svc_on_result _ _ _ (fun s => exists rest, st_trajectory s = first :: rest)
                              (fun s => exists rest, st_trajectory s = first :: rest)); fold e.
    + auto.
    + intros s (rest & Hs) _ _; apply step_result_cases.
      destruct (Svc_step_shape e s) as [_ Htr].
      exact (head_kept e s first rest (st_trajectory (step_state (Svc.step e s))) Hs Htr).
    + exists []; exact Hinit.
    + intros s (rest & Hs); exact (Hfin _ s rest Hs).
Qed.

Lemma integrateTrajectory_recorded_ends_witness :
  let opts := mkOptions None None None None None (Some true) (Some 1%nat) in
  opt_recordTrajectory opts = Some true /\
  on_result (Svc.integrateTrajectory (Svc.calculateEntryConditions 15 None)
               (calculateBodyProperties 50 (mkMaterial 3000 2e5 None)) opts)
    (recorded_ends (Svc.calculateEntryConditions 15 None)
       (calculateBodyProperties 50 (mkMaterial 3000 2e5 None))).
Proof.
  intros opts.
  assert (H : opt_recordTrajectory opts = Some true) by reflexivity.
  split; [exact H|].
  exact (proj2 (integrateTrajectory_recorded_ends _ _ _ H)).
Defined.
